(** * aws_networker: the Mermaid diagram generator and the collector's
      record builders, embedded from [mermaid_maker.py] and [mapper.py].

    The network model is the dictionary [get_network_resources] builds and
    [NetworkDiagramGenerator] walks.  Every dictionary key becomes a record
    field of [option] type: [None] is an absent key, [Some x] a key bound
    to a value of the type the collector stores under it.  A subscript
    [d['k']] is [getitem], which raises [KeyError] on [None]; [d.get('k')]
    and [d.get('k', default)] are total.

    The generator object holds [self.data] and the line buffer
    [self.diagram]; its methods are computations in a state-and-exception
    monad over that object.  An exception leaves the buffer as it was when
    it was raised, as in Python. *)

From Stdlib Require Import List String Ascii Bool Arith ZArith Lia Permutation.
From Stdlib Require Import DecimalString.
Import ListNotations.
Local Open Scope list_scope.
Local Open Scope string_scope.

(** ** Strings *)

Module Py.

(** The double-quote character, written by its code. *)
Definition dq : string := String "034"%char EmptyString.

(** The line feed of the separator in ['\n    '.join]. *)
Definition nl : string := String "010"%char EmptyString.

(** [s.startswith(prefix)] *)
Fixpoint startswith (s prefix : string) {struct prefix} : bool :=
  match prefix with
  | EmptyString => true
  | String c prefix' =>
      match s with
      | EmptyString => false
      | String d s' => Ascii.eqb c d && startswith s' prefix'
      end
  end.

(** [s.replace(old, new)] for a non-empty [old]: scan from the left; where
    [old] starts, copy [new] and skip the rest of the occurrence ([skip]
    counts the characters still to pass over), otherwise copy the
    character. *)
Fixpoint replace_from (old new : string) (skip : nat) (s : string) : string :=
  match s with
  | EmptyString => EmptyString
  | String c rest =>
      match skip with
      | S k => replace_from old new k rest
      | O =>
          if startswith s old
          then new ++ replace_from old new (String.length old - 1) rest
          else String c (replace_from old new 0 rest)
      end
  end.

(** With an empty [old], Python puts [new] before every character and at
    the end. *)
Fixpoint intersperse (new s : string) : string :=
  match s with
  | EmptyString => new
  | String c rest => new ++ String c (intersperse new rest)
  end.

Definition replace (s old new : string) : string :=
  match old with
  | EmptyString => intersperse new s
  | _ => replace_from old new 0 s
  end.

Definition upper_ascii (c : ascii) : ascii :=
  let n := nat_of_ascii c in
  if (97 <=? n)%nat && (n <=? 122)%nat then ascii_of_nat (n - 32) else c.

(** [s.upper()] on ASCII text: the letters [a] to [z] become [A] to [Z]
    and every other byte is kept.  Python's [str.upper] also maps the
    letters outside ASCII; on a string that holds one, this definition
    differs from it.  The protocol names the collector stores ([tcp],
    [udp], [icmp], [-1]) are ASCII, and nothing proved below depends on
    the case of a label. *)
Fixpoint upper (s : string) : string :=
  match s with
  | EmptyString => EmptyString
  | String c rest => String (upper_ascii c) (upper rest)
  end.

(** [sep.join(xs)] *)
Definition join (sep : string) (xs : list string) : string := String.concat sep xs.

(** [k.endswith(suffix)] *)
Definition endswith (k suffix : string) : bool :=
  let n := String.length k in
  let m := String.length suffix in
  (m <=? n)%nat && String.eqb (substring (n - m) m k) suffix.

(** [str(n)] for an integer. *)
Definition str_int (n : Z) : string := NilZero.string_of_int (Z.to_int n).

(** [x in xs] for a list of strings. *)
Definition contains (x : string) (xs : list string) : bool :=
  existsb (String.eqb x) xs.

(** Does the character occur in the string? *)
Fixpoint has_char (c : ascii) (s : string) : bool :=
  match s with
  | EmptyString => false
  | String d rest => Ascii.eqb c d || has_char c rest
  end.

End Py.

(** ** The network model *)

Record route := mk_route {
  route_destination : option string;
  route_target : option string
}.

Record route_table := mk_route_table {
  rt_id : option string;
  rt_name : option string;
  rt_routes : option (list route);
  rt_subnet_associations : option (list string)
}.

Record ingress_rule := mk_rule {
  rule_protocol : option string;
  rule_port_range : option string;
  rule_sources : option (list string)
}.

Record security_group := mk_sg {
  sg_id : option string;
  sg_name : option string;
  sg_description : option string;
  sg_rules_ingress : option (list ingress_rule)
}.

Record subnet := mk_subnet {
  subnet_id : option string;
  subnet_name : option string;
  subnet_cidr : option string;
  subnet_az : option string;
  subnet_public : option bool
}.

Record vpc := mk_vpc {
  vpc_id : option string;
  vpc_name : option string;
  vpc_cidr : option string;
  vpc_subnets : option (list subnet);
  vpc_route_tables : option (list route_table);
  vpc_security_groups : option (list security_group)
}.

Record network_data := mk_network_data {
  nd_timestamp : option string;
  nd_region : option string;
  nd_vpcs : option (list vpc)
}.

(** [d.get(k, default)] *)
Definition get {A : Type} (field : option A) (default : A) : A :=
  match field with
  | Some x => x
  | None => default
  end.

(** Truth value of [subnet.get('public')]: an absent key gives [None],
    which is false. *)
Definition truthy (field : option bool) : bool := get field false.

(** ** The insertion-ordered dictionary [az_subnets] *)

Module Dict.

Definition t (V : Type) := list (string * V).

(** [k in d] *)
Definition mem {V} (k : string) (d : t V) : bool :=
  existsb (fun kv => String.eqb (fst kv) k) d.

(** [d[k] = v]: a new key goes last, an existing key keeps its place. *)
Fixpoint set {V} (k : string) (v : V) (d : t V) : t V :=
  match d with
  | [] => [(k, v)]
  | (k', v') :: rest =>
      if String.eqb k' k then (k', v) :: rest else (k', v') :: set k v rest
  end.

(** [d[k].append(x)] for a key that is present. *)
Fixpoint append {V} (k : string) (x : V) (d : t (list V)) : t (list V) :=
  match d with
  | [] => []
  | (k', xs) :: rest =>
      if String.eqb k' k then (k', (xs ++ [x])%list) :: rest else (k', xs) :: append k x rest
  end.

(** [d.items()] *)
Definition items {V} (d : t V) : list (string * V) := d.

Definition keys {V} (d : t V) : list string := map fst d.

End Dict.

(** ** The generator object and its monad *)

Inductive exn : Type :=
| KeyError (key : string).

Inductive result (A : Type) : Type :=
| Ok (a : A)
| Raise (e : exn).
Arguments Ok {A} a.
Arguments Raise {A} e.

Record generator := mk_generator {
  data : network_data;
  diagram : list string
}.

Definition M (A : Type) : Type := generator -> result A * generator.

Definition ret {A} (a : A) : M A := fun self => (Ok a, self).

Definition bind {A B} (m : M A) (k : A -> M B) : M B :=
  fun self =>
    match m self with
    | (Ok a, self') => k a self'
    | (Raise e, self') => (Raise e, self')
    end.

Definition raise {A} (e : exn) : M A := fun self => (Raise e, self).

Declare Scope py_scope.
Delimit Scope py_scope with py.
Notation "x <- m ;; k" := (bind m (fun x => k))
  (at level 100, m at next level, right associativity) : py_scope.
Notation "m ;; k" := (bind m (fun _ => k))
  (at level 100, right associativity) : py_scope.
Local Open Scope py_scope.

(** [d[key]] *)
Definition getitem {A} (key : string) (field : option A) : M A :=
  match field with
  | Some x => ret x
  | None => raise (KeyError key)
  end.

(** [self.data] *)
Definition self_data : M network_data := fun self => (Ok (data self), self).

(** [self.diagram = lines] *)
Definition diagram_assign (lines : list string) : M unit :=
  fun self => (Ok tt, {| data := data self; diagram := lines |}).

(** [self.diagram.extend(lines)] *)
Definition diagram_extend (lines : list string) : M unit :=
  fun self => (Ok tt, {| data := data self; diagram := (diagram self ++ lines)%list |}).

(** [self.diagram.append(line)] *)
Definition diagram_append (line : string) : M unit :=
  fun self => (Ok tt, {| data := data self; diagram := (diagram self ++ [line])%list |}).

(** [self.diagram] *)
Definition self_diagram : M (list string) := fun self => (Ok (diagram self), self).

(** [for x in xs: body(x)] *)
Fixpoint for_each {A} (xs : list A) (body : A -> M unit) : M unit :=
  match xs with
  | [] => ret tt
  | x :: rest => body x ;; for_each rest body
  end.

(** [[f(x) for x in xs]] where [f] may raise. *)
Fixpoint comprehension {A B} (f : A -> M B) (xs : list A) : M (list B) :=
  match xs with
  | [] => ret []
  | x :: rest =>
      y <- f x ;;
      ys <- comprehension f rest ;;
      ret (y :: ys)
  end.

(** ** [NetworkDiagramGenerator] *)

Module NetworkDiagramGenerator.

(** [__init__] *)
Definition init (network_data : network_data) : generator :=
  {| data := network_data; diagram := [] |}.

(** [_add_route_table] *)
Definition _add_route_table (rt : route_table) (subnet_id : string) : M unit :=
  id <- getitem "id" (rt_id rt) ;;
  let rt_id := Py.replace id "-" "_" in
  routes <- getitem "routes" (rt_routes rt) ;;
  labels <- comprehension
    (fun route =>
       destination <- getitem "destination" (route_destination route) ;;
       target <- getitem "target" (route_target route) ;;
       ret ("- " ++ destination ++ " → " ++ target))
    routes ;;
  let routes_str := Py.join "<br/>" labels in
  diagram_extend [
    "                rt_" ++ rt_id ++ "[" ++ Py.dq ++ "Route Table<br/>" ++ routes_str
      ++ Py.dq ++ "]";
    "                rt_" ++ rt_id ++ " --> subnet_" ++ subnet_id
  ].

(** [_add_security_group] *)
Definition _add_security_group (sg : security_group) (subnet_id : string) : M unit :=
  id <- getitem "id" (sg_id sg) ;;
  let sg_id := Py.replace id "-" "_" in
  rules <- getitem "rules_ingress" (sg_rules_ingress sg) ;;
  labels <- comprehension
    (fun rule =>
       protocol <- getitem "protocol" (rule_protocol rule) ;;
       port_range <- getitem "port_range" (rule_port_range rule) ;;
       sources <- getitem "sources" (rule_sources rule) ;;
       ret ("- " ++ Py.upper protocol ++ " " ++ port_range ++ " from "
              ++ Py.join ", " sources))
    rules ;;
  let rules_str := Py.join "<br/>" labels in
  name <- getitem "name" (sg_name sg) ;;
  diagram_extend [
    "                sg_" ++ sg_id ++ "[" ++ Py.dq ++ name ++ "<br/>Inbound:<br/>"
      ++ rules_str ++ Py.dq ++ "]";
    "                sg_" ++ sg_id ++ " --> subnet_" ++ subnet_id
  ].

(** [_process_subnet] *)
Definition _process_subnet (subnet : subnet) (vpc : vpc) : M unit :=
  id <- getitem "id" (subnet_id subnet) ;;
  let subnet_id := Py.replace id "-" "_" in
  let subnet_type := if truthy (subnet_public subnet) then "Public" else "Private" in
  cidr <- getitem "cidr" (subnet_cidr subnet) ;;
  diagram_extend [
    "            subgraph subnet_" ++ subnet_id ++ "[" ++ Py.dq ++ subnet_type
      ++ " Subnet (" ++ cidr ++ ")" ++ Py.dq ++ "]"
  ] ;;
  route_tables <- getitem "route_tables" (vpc_route_tables vpc) ;;
  for_each route_tables (fun rt =>
    if Py.contains id (get (rt_subnet_associations rt) [])
    then _add_route_table rt subnet_id
    else ret tt) ;;
  security_groups <- getitem "security_groups" (vpc_security_groups vpc) ;;
  for_each security_groups (fun sg => _add_security_group sg subnet_id) ;;
  diagram_append "            end".

(** [_process_az] *)
Definition _process_az (az : string) (subnets : list subnet) (vpc : vpc) : M unit :=
  let az_id := Py.replace az "-" "_" in
  diagram_extend [
    "        subgraph " ++ az_id ++ "[" ++ Py.dq ++ az ++ Py.dq ++ "]"
  ] ;;
  for_each subnets (fun subnet => _process_subnet subnet vpc) ;;
  diagram_append "        end".

(** The grouping loop of [_process_vpc]: [az_subnets] is threaded through
    the iterations. *)
Fixpoint group_by_az (subnets : list subnet) (az_subnets : Dict.t (list subnet))
  : M (Dict.t (list subnet)) :=
  match subnets with
  | [] => ret az_subnets
  | subnet :: rest =>
      az <- getitem "az" (subnet_az subnet) ;;
      let az_subnets :=
        if negb (Dict.mem az az_subnets) then Dict.set az [] az_subnets else az_subnets in
      let az_subnets := Dict.append az subnet az_subnets in
      group_by_az rest az_subnets
  end.

(** [_process_vpc] *)
Definition _process_vpc (vpc : vpc) : M unit :=
  id <- getitem "id" (vpc_id vpc) ;;
  let vpc_id := Py.replace id "-" "_" in
  name <- getitem "name" (vpc_name vpc) ;;
  cidr <- getitem "cidr" (vpc_cidr vpc) ;;
  diagram_extend [
    "    subgraph " ++ vpc_id ++ "[" ++ Py.dq ++ name ++ " (" ++ cidr ++ ")" ++ Py.dq ++ "]"
  ] ;;
  subnets <- getitem "subnets" (vpc_subnets vpc) ;;
  az_subnets <- group_by_az subnets [] ;;
  for_each (Dict.items az_subnets) (fun item =>
    _process_az (fst item) (snd item) vpc) ;;
  diagram_append "    end" ;;
  diagram_extend [
    "    igw_" ++ vpc_id ++ "[" ++ Py.dq ++ "Internet Gateway" ++ Py.dq ++ "]"
  ] ;;
  subnets <- getitem "subnets" (vpc_subnets vpc) ;;
  for_each subnets (fun subnet =>
    if truthy (subnet_public subnet) then
      id <- getitem "id" (subnet_id subnet) ;;
      let subnet_id := Py.replace id "-" "_" in
      diagram_append ("    igw_" ++ vpc_id ++ " --> subnet_" ++ subnet_id)
    else ret tt).

(** The lines [_add_styling] appends. *)
Definition styling : list string := [
  "    %% Styling";
  "    classDef vpc fill:#f5f5f5,stroke:#333,stroke-width:2px";
  "    classDef az fill:#e6f3ff,stroke:#333,stroke-width:1px";
  "    classDef subnet fill:#fff,stroke:#333,stroke-width:1px";
  "    classDef component fill:#fff,stroke:#666,stroke-width:1px,stroke-dasharray: 5 5";
  EmptyString;
  "    %% Apply styles";
  "    class vpc vpc";
  "    class az1 az";
  "    class pub_subnet,priv_subnet subnet";
  "    class pub_rt,web_sg,igw component"
].

(** [_add_styling] *)
Definition _add_styling : M unit := diagram_extend styling.

(** [generate_diagram] *)
Definition generate_diagram : M string :=
  diagram_assign ["graph TB"] ;;
  network_data <- self_data ;;
  vpcs <- getitem "vpcs" (nd_vpcs network_data) ;;
  for_each vpcs _process_vpc ;;
  _add_styling ;;
  lines <- self_diagram ;;
  ret (Py.join (Py.nl ++ "    ") lines).

End NetworkDiagramGenerator.

(** ** The record builders of [get_network_resources] *)

Module Mapper.

(** A route of [describe_route_tables]: a dictionary from field names to
    strings, in the order of the response. *)
Definition raw_route := list (string * string).

(** [route.get(key, default)] on the raw dictionary. *)
Fixpoint raw_get (key : string) (d : raw_route) (default : string) : string :=
  match d with
  | [] => default
  | (k, v) :: rest => if String.eqb k key then v else raw_get key rest default
  end.

(** [next((v for k, v in route.items() if k.endswith('Id')), default)] *)
Fixpoint next_id_value (d : raw_route) (default : string) : string :=
  match d with
  | [] => default
  | (k, v) :: rest => if Py.endswith k "Id" then v else next_id_value rest default
  end.

(** [route_data] *)
Definition route_data (r : raw_route) : route :=
  {| route_destination := Some (raw_get "DestinationCidrBlock" r "Unknown");
     route_target := Some (next_id_value r "Unknown") |}.

Record raw_ip_range := mk_raw_ip_range {
  CidrIp : option string
}.

(** An entry of [IpPermissions]. *)
Record raw_permission := mk_raw_permission {
  FromPort : option Z;
  ToPort : option Z;
  IpProtocol : option string;
  IpRanges : option (list raw_ip_range)
}.

(** [f"{rule.get(port, 'All')}"] *)
Definition port_text (port : option Z) : string :=
  match port with
  | Some n => Py.str_int n
  | None => "All"
  end.

(** [[ip_range['CidrIp'] for ip_range in ranges]] *)
Fixpoint cidr_ips (ranges : list raw_ip_range) : result (list string) :=
  match ranges with
  | [] => Ok []
  | ip_range :: rest =>
      match CidrIp ip_range with
      | None => Raise (KeyError "CidrIp")
      | Some c =>
          match cidr_ips rest with
          | Ok cs => Ok (c :: cs)
          | Raise e => Raise e
          end
      end
  end.

(** The dictionary appended to [rules_ingress] for one permission. *)
Definition rule_data (rule : raw_permission) : result ingress_rule :=
  let port_range := port_text (FromPort rule) ++ "-" ++ port_text (ToPort rule) in
  match cidr_ips (get (IpRanges rule) []) with
  | Raise e => Raise e
  | Ok sources =>
      Ok {| rule_protocol := Some (get (IpProtocol rule) "All");
            rule_port_range := Some port_range;
            rule_sources := Some sources |}
  end.

End Mapper.

(** ** The example of the specification, run through the generator *)

Module Example.

Definition rtb_1 : route_table :=
  {| rt_id := Some "rtb-1"; rt_name := Some "Unnamed";
     rt_routes := Some [ {| route_destination := Some "0.0.0.0/0";
                            route_target := Some "igw-1" |} ];
     rt_subnet_associations := Some ["subnet-1"] |}.

Definition sg_1 : security_group :=
  {| sg_id := Some "sg-1"; sg_name := Some "web"; sg_description := Some "web";
     sg_rules_ingress := Some [ {| rule_protocol := Some "tcp";
                                   rule_port_range := Some "80-80";
                                   rule_sources := Some ["0.0.0.0/0"] |} ] |}.

Definition subnet_1 : subnet :=
  {| subnet_id := Some "subnet-1"; subnet_name := Some "Unnamed";
     subnet_cidr := Some "10.0.1.0/24"; subnet_az := Some "us-east-1a";
     subnet_public := Some true |}.

Definition vpc_1 : vpc :=
  {| vpc_id := Some "vpc-1"; vpc_name := Some "main"; vpc_cidr := Some "10.0.0.0/16";
     vpc_subnets := Some [subnet_1]; vpc_route_tables := Some [rtb_1];
     vpc_security_groups := Some [sg_1] |}.

Definition model : network_data :=
  {| nd_timestamp := Some "t"; nd_region := Some "us-east-1"; nd_vpcs := Some [vpc_1] |}.

End Example.

(** ** What a run is expected to append

    The generator only ever appends to its buffer.  For each method this
    section names the condition under which it returns and the lines it
    then appends, in terms of the model alone.  [text] and [elements] read
    a present field; they are only looked at where the field is present. *)

Module Expected.

Import NetworkDiagramGenerator.

(** The identifier sanitizer of the specification: [raw.replace('-', '_')]. *)
Definition sanitize (raw : string) : string := Py.replace raw "-" "_".

(** Hyphens to underscores, character by character. *)
Fixpoint hyphens_to_underscores (s : string) : string :=
  match s with
  | EmptyString => EmptyString
  | String c rest =>
      String (if Ascii.eqb c "-" then "_"%char else c) (hyphens_to_underscores rest)
  end.

Definition present {A} (field : option A) : bool :=
  match field with
  | Some _ => true
  | None => false
  end.

Definition text (field : option string) : string := get field EmptyString.

Definition elements {A} (field : option (list A)) : list A := get field [].

(** The keys the generator reads by subscript. *)
Definition subscripted_keys : list string :=
  ["vpcs"; "id"; "name"; "cidr"; "subnets"; "az"; "route_tables"; "routes";
   "destination"; "target"; "security_groups"; "rules_ingress"; "protocol";
   "port_range"; "sources"].

Definition is_subscripted (key : string) : bool := Py.contains key subscripted_keys.

(** *** Route tables *)

Definition route_ok (r : route) : bool :=
  present (route_destination r) && present (route_target r).

Definition route_label (r : route) : string :=
  "- " ++ text (route_destination r) ++ " → " ++ text (route_target r).

Definition rt_ok (rt : route_table) : bool :=
  present (rt_id rt) && (present (rt_routes rt)
    && forallb route_ok (elements (rt_routes rt))).

Definition rt_node (rt : route_table) : string :=
  "                rt_" ++ sanitize (text (rt_id rt)) ++ "[" ++ Py.dq ++ "Route Table<br/>"
    ++ Py.join "<br/>" (map route_label (elements (rt_routes rt))) ++ Py.dq ++ "]".

Definition rt_edge (rt : route_table) (subnet_id : string) : string :=
  "                rt_" ++ sanitize (text (rt_id rt)) ++ " --> subnet_" ++ subnet_id.

Definition rt_lines (subnet_id : string) (rt : route_table) : list string :=
  [rt_node rt; rt_edge rt subnet_id].

(** *** Security groups *)

Definition rule_ok (r : ingress_rule) : bool :=
  present (rule_protocol r) && (present (rule_port_range r) && present (rule_sources r)).

Definition rule_label (r : ingress_rule) : string :=
  "- " ++ Py.upper (text (rule_protocol r)) ++ " " ++ text (rule_port_range r) ++ " from "
    ++ Py.join ", " (elements (rule_sources r)).

Definition sg_ok (sg : security_group) : bool :=
  present (sg_id sg) && (present (sg_rules_ingress sg)
    && (forallb rule_ok (elements (sg_rules_ingress sg)) && present (sg_name sg))).

Definition sg_node (sg : security_group) : string :=
  "                sg_" ++ sanitize (text (sg_id sg)) ++ "[" ++ Py.dq ++ text (sg_name sg)
    ++ "<br/>Inbound:<br/>"
    ++ Py.join "<br/>" (map rule_label (elements (sg_rules_ingress sg))) ++ Py.dq ++ "]".

Definition sg_edge (sg : security_group) (subnet_id : string) : string :=
  "                sg_" ++ sanitize (text (sg_id sg)) ++ " --> subnet_" ++ subnet_id.

Definition sg_lines (subnet_id : string) (sg : security_group) : list string :=
  [sg_node sg; sg_edge sg subnet_id].

(** *** Subnets *)

(** [subnet['id'] in rt.get('subnet_associations', [])] *)
Definition associated (s : subnet) (rt : route_table) : bool :=
  Py.contains (text (subnet_id s)) (get (rt_subnet_associations rt) []).

Definition is_public (s : subnet) : bool := truthy (subnet_public s).

Definition subnet_ok (v : vpc) (s : subnet) : bool :=
  present (subnet_id s) && (present (subnet_cidr s)
    && (present (vpc_route_tables v)
    && (forallb (fun rt => implb (associated s rt) (rt_ok rt)) (elements (vpc_route_tables v))
    && (present (vpc_security_groups v)
    && forallb sg_ok (elements (vpc_security_groups v)))))).

Definition subnet_block_id (s : subnet) : string := sanitize (text (subnet_id s)).

Definition subnet_header (s : subnet) : string :=
  "            subgraph subnet_" ++ subnet_block_id s ++ "[" ++ Py.dq
    ++ (if is_public s then "Public" else "Private")
    ++ " Subnet (" ++ text (subnet_cidr s) ++ ")" ++ Py.dq ++ "]".

Definition subnet_footer : string := "            end".

(** [routeTablesFor] of the specification. *)
Definition route_tables_for (s : subnet) (v : vpc) : list route_table :=
  filter (associated s) (elements (vpc_route_tables v)).

(** [securityGroupsFor] of the specification. *)
Definition security_groups_for (s : subnet) (v : vpc) : list security_group :=
  elements (vpc_security_groups v).

Definition rt_section (v : vpc) (s : subnet) : list string :=
  flat_map (rt_lines (subnet_block_id s)) (route_tables_for s v).

Definition sg_section (v : vpc) (s : subnet) : list string :=
  flat_map (sg_lines (subnet_block_id s)) (security_groups_for s v).

Definition subnet_block (v : vpc) (s : subnet) : list string :=
  (subnet_header s :: rt_section v s ++ sg_section v s ++ [subnet_footer])%list.

(** *** Availability zones *)

Definition az_of (s : subnet) : string := text (subnet_az s).

Definition az_header (az : string) : string :=
  "        subgraph " ++ sanitize az ++ "[" ++ Py.dq ++ az ++ Py.dq ++ "]".

Definition az_footer : string := "        end".

Definition az_block (v : vpc) (item : string * list subnet) : list string :=
  (az_header (fst item) :: flat_map (subnet_block v) (snd item) ++ [az_footer])%list.

(** One iteration of the grouping loop, and the loop, on subnets that
    carry [az]. *)
Definition group_step (az_subnets : Dict.t (list subnet)) (s : subnet)
  : Dict.t (list subnet) :=
  Dict.append (az_of s) s
    (if negb (Dict.mem (az_of s) az_subnets)
     then Dict.set (az_of s) [] az_subnets else az_subnets).

Definition group_from (az_subnets : Dict.t (list subnet)) (subnets : list subnet)
  : Dict.t (list subnet) :=
  fold_left group_step subnets az_subnets.

Definition groups (subnets : list subnet) : Dict.t (list subnet) := group_from [] subnets.

(** The values of a list in the order of their first occurrence. *)
Fixpoint first_occurrences (xs : list string) : list string :=
  match xs with
  | [] => []
  | x :: rest => x :: filter (fun y => negb (String.eqb y x)) (first_occurrences rest)
  end.

(** The dictionary with keys [ks], in that order, and [f k] under [k]. *)
Definition tabulate {V} (f : string -> V) (ks : list string) : Dict.t V :=
  map (fun k => (k, f k)) ks.

(** [groupByAZ] as the specification words it: the availability zones in
    the order of their first occurrence, each with its subnets in input
    order. *)
Definition groupByAZ (subnets : list subnet) : Dict.t (list subnet) :=
  tabulate (fun az => filter (fun s => String.eqb (az_of s) az) subnets)
           (first_occurrences (map az_of subnets)).

(** *** VPCs *)

Definition vpc_ok (v : vpc) : bool :=
  present (vpc_id v) && (present (vpc_name v) && (present (vpc_cidr v)
    && (present (vpc_subnets v)
    && (forallb (fun s => present (subnet_az s)) (elements (vpc_subnets v))
    && forallb (subnet_ok v) (elements (vpc_subnets v)))))).

Definition vpc_header (v : vpc) : string :=
  "    subgraph " ++ sanitize (text (vpc_id v)) ++ "[" ++ Py.dq ++ text (vpc_name v)
    ++ " (" ++ text (vpc_cidr v) ++ ")" ++ Py.dq ++ "]".

Definition vpc_footer : string := "    end".

Definition igw_node (v : vpc) : string :=
  "    igw_" ++ sanitize (text (vpc_id v)) ++ "[" ++ Py.dq ++ "Internet Gateway" ++ Py.dq ++ "]".

Definition igw_edge (v : vpc) (s : subnet) : string :=
  "    igw_" ++ sanitize (text (vpc_id v)) ++ " --> subnet_" ++ subnet_block_id s.

Definition vpc_block (v : vpc) : list string :=
  (vpc_header v :: flat_map (az_block v) (groups (elements (vpc_subnets v)))
     ++ [vpc_footer])%list.

Definition igw_section (v : vpc) : list string :=
  (igw_node v :: map (igw_edge v) (filter is_public (elements (vpc_subnets v))))%list.

Definition vpc_lines (v : vpc) : list string := (vpc_block v ++ igw_section v)%list.

(** *** The model *)

(** Every key the traversal reaches by subscript is present. *)
Definition required_present (m : network_data) : bool :=
  present (nd_vpcs m) && forallb vpc_ok (elements (nd_vpcs m)).

Definition diagram_lines (m : network_data) : list string :=
  ("graph TB" :: flat_map vpc_lines (elements (nd_vpcs m)) ++ styling)%list.

(** *** Runs *)

Definition extend_by (self : generator) (lines : list string) : generator :=
  {| data := data self; diagram := (diagram self ++ lines)%list |}.

(** [behaves m ok a lines]: from every state, [m] returns [a] having
    appended [lines] when [ok] holds, and otherwise raises [KeyError] on a
    subscripted key having appended only; the model is as it was either
    way. *)
Definition behaves {A} (m : M A) (ok : bool) (a : A) (lines : list string) : Prop :=
  forall self,
    if ok then m self = (Ok a, extend_by self lines)
    else exists key lines',
        m self = (Raise (KeyError key), extend_by self lines')
        /\ is_subscripted key = true.

(** *** Reading lines back *)

(** Every line of a security group, node or edge, starts like this; no
    other line of the diagram does. *)
Definition sg_prefix : string := "                sg_".

(** Every line of an Internet Gateway, node or edge, starts like this. *)
Definition igw_prefix : string := "    igw_".

Definition starting_with (prefix : string) (lines : list string) : list string :=
  filter (fun line => Py.startswith line prefix) lines.

End Expected.

(** ** Models with absent keys *)

Module Absent.

(** [rtb_1] of the example with a route that has no [destination]. *)
Definition rtb_no_destination : route_table :=
  {| rt_id := Some "rtb-1"; rt_name := Some "Unnamed";
     rt_routes := Some [ {| route_destination := None; route_target := Some "igw-1" |} ];
     rt_subnet_associations := Some ["subnet-1"] |}.

(** [sg_1] of the example with a rule that has no [port_range]. *)
Definition sg_no_port_range : security_group :=
  {| sg_id := Some "sg-1"; sg_name := Some "web"; sg_description := Some "web";
     sg_rules_ingress := Some [ {| rule_protocol := Some "tcp";
                                   rule_port_range := None;
                                   rule_sources := Some ["0.0.0.0/0"] |} ] |}.

Definition model_no_destination : network_data :=
  {| nd_timestamp := Some "t"; nd_region := Some "us-east-1";
     nd_vpcs := Some [ {| vpc_id := Some "vpc-1"; vpc_name := Some "main";
                          vpc_cidr := Some "10.0.0.0/16";
                          vpc_subnets := Some [Example.subnet_1];
                          vpc_route_tables := Some [rtb_no_destination];
                          vpc_security_groups := Some [Example.sg_1] |} ] |}.

Definition model_no_port_range : network_data :=
  {| nd_timestamp := Some "t"; nd_region := Some "us-east-1";
     nd_vpcs := Some [ {| vpc_id := Some "vpc-1"; vpc_name := Some "main";
                          vpc_cidr := Some "10.0.0.0/16";
                          vpc_subnets := Some [Example.subnet_1];
                          vpc_route_tables := Some [Example.rtb_1];
                          vpc_security_groups := Some [sg_no_port_range] |} ] |}.

(** A subnet with neither [public] nor [name]. *)
Definition subnet_bare : subnet :=
  {| subnet_id := Some "subnet-2"; subnet_name := None;
     subnet_cidr := Some "10.0.2.0/24"; subnet_az := Some "us-east-1b";
     subnet_public := None |}.

(** A route table with only an [id]: no [name], [routes] or
    [subnet_associations]. *)
Definition rtb_bare : route_table :=
  {| rt_id := Some "rtb-2"; rt_name := None; rt_routes := None;
     rt_subnet_associations := None |}.

Definition model_bare : network_data :=
  {| nd_timestamp := None; nd_region := None;
     nd_vpcs := Some [ {| vpc_id := Some "vpc-1"; vpc_name := Some "main";
                          vpc_cidr := Some "10.0.0.0/16";
                          vpc_subnets := Some [subnet_bare];
                          vpc_route_tables := Some [rtb_bare];
                          vpc_security_groups := Some [] |} ] |}.

(** Two VPCs, each with a subnet in [us-east-1a]. *)
Definition vpc_2 : vpc :=
  {| vpc_id := Some "vpc-2"; vpc_name := Some "other"; vpc_cidr := Some "10.1.0.0/16";
     vpc_subnets := Some [ {| subnet_id := Some "subnet-9"; subnet_name := Some "Unnamed";
                              subnet_cidr := Some "10.1.1.0/24";
                              subnet_az := Some "us-east-1a";
                              subnet_public := Some false |} ];
     vpc_route_tables := Some []; vpc_security_groups := Some [] |}.

Definition model_two_vpcs : network_data :=
  {| nd_timestamp := Some "t"; nd_region := Some "us-east-1";
     nd_vpcs := Some [Example.vpc_1; vpc_2] |}.

End Absent.

(** ** [get_network_resources], from the responses of the EC2 client

    The client is taken as its responses: what [describe_vpcs] returns, and
    what [describe_subnets], [describe_route_tables] and
    [describe_security_groups] return for the [vpc-id] they are filtered
    by.  [collect] is the function up to the dictionary [network_data];
    its serialisation with [json.dumps] is not part of the model. *)

Module Collector.

Import Mapper.

Definition subscript {A} (key : string) (field : option A) : result A :=
  match field with
  | Some x => Ok x
  | None => Raise (KeyError key)
  end.

Definition and_then {A B} (r : result A) (k : A -> result B) : result B :=
  match r with
  | Ok a => k a
  | Raise e => Raise e
  end.

Declare Scope result_scope.
Delimit Scope result_scope with result.
Notation "x <-- r ;; k" := (and_then r (fun x => k))
  (at level 100, r at next level, right associativity) : result_scope.
Local Open Scope result_scope.

(** [[f(x) for x in xs]] and [for x in xs: out.append(f(x))], where [f]
    may raise. *)
Fixpoint each {A B} (f : A -> result B) (xs : list A) : result (list B) :=
  match xs with
  | [] => Ok []
  | x :: rest =>
      y <-- f x ;;
      ys <-- each f rest ;;
      Ok (y :: ys)
  end.

Record raw_tag := mk_raw_tag {
  tag_Key : option string;
  tag_Value : option string
}.

(** [next((tag['Value'] for tag in tags if tag['Key'] == 'Name'), "Unnamed")] *)
Fixpoint next_name_value (tags : list raw_tag) : result string :=
  match tags with
  | [] => Ok "Unnamed"
  | tag :: rest =>
      key <-- subscript "Key" (tag_Key tag) ;;
      if String.eqb key "Name"
      then subscript "Value" (tag_Value tag)
      else next_name_value rest
  end.

(** [get_name_tag] *)
Definition get_name_tag (tags : list raw_tag) : result string :=
  match tags with
  | [] => Ok "Unnamed"
  | _ => next_name_value tags
  end.

Record raw_vpc := mk_raw_vpc {
  VpcId : option string;
  vpc_Tags : option (list raw_tag);
  vpc_CidrBlock : option string
}.

Record raw_subnet := mk_raw_subnet {
  SubnetId : option string;
  subnet_Tags : option (list raw_tag);
  subnet_CidrBlock : option string;
  AvailabilityZone : option string;
  MapPublicIpOnLaunch : option bool
}.

Record raw_association := mk_raw_association {
  assoc_SubnetId : option string
}.

Record raw_route_table := mk_raw_route_table {
  Routes : option (list raw_route);
  RouteTableId : option string;
  rt_Tags : option (list raw_tag);
  Associations : option (list raw_association)
}.

Record raw_security_group := mk_raw_security_group {
  IpPermissions : option (list raw_permission);
  GroupId : option string;
  GroupName : option string;
  Description : option string
}.

Record ec2_client := mk_ec2_client {
  describe_vpcs : option (list raw_vpc);
  describe_subnets : string -> option (list raw_subnet);
  describe_route_tables : string -> option (list raw_route_table);
  describe_security_groups : string -> option (list raw_security_group);
  region_name : string
}.

(** [vpc_data] *)
Definition vpc_data (raw : raw_vpc) : result vpc :=
  id <-- subscript "VpcId" (VpcId raw) ;;
  name <-- get_name_tag (get (vpc_Tags raw) []) ;;
  cidr <-- subscript "CidrBlock" (vpc_CidrBlock raw) ;;
  Ok {| vpc_id := Some id; vpc_name := Some name; vpc_cidr := Some cidr;
        vpc_subnets := Some []; vpc_route_tables := Some [];
        vpc_security_groups := Some [] |}.

(** [subnet_data] *)
Definition subnet_data (raw : raw_subnet) : result subnet :=
  id <-- subscript "SubnetId" (SubnetId raw) ;;
  name <-- get_name_tag (get (subnet_Tags raw) []) ;;
  cidr <-- subscript "CidrBlock" (subnet_CidrBlock raw) ;;
  az <-- subscript "AvailabilityZone" (AvailabilityZone raw) ;;
  Ok {| subnet_id := Some id; subnet_name := Some name; subnet_cidr := Some cidr;
        subnet_az := Some az;
        subnet_public := Some (get (MapPublicIpOnLaunch raw) false) |}.

(** [[assoc['SubnetId'] for assoc in associations if 'SubnetId' in assoc]] *)
Fixpoint associated_subnet_ids (associations : list raw_association) : list string :=
  match associations with
  | [] => []
  | assoc :: rest =>
      match assoc_SubnetId assoc with
      | Some id => id :: associated_subnet_ids rest
      | None => associated_subnet_ids rest
      end
  end.

(** [rt_data], after the loop that fills [routes]. *)
Definition rt_data (raw : raw_route_table) : result route_table :=
  raw_routes <-- subscript "Routes" (Routes raw) ;;
  let routes := map route_data raw_routes in
  id <-- subscript "RouteTableId" (RouteTableId raw) ;;
  name <-- get_name_tag (get (rt_Tags raw) []) ;;
  Ok {| rt_id := Some id; rt_name := Some name; rt_routes := Some routes;
        rt_subnet_associations :=
          Some (associated_subnet_ids (get (Associations raw) [])) |}.

(** [sg_data], after the loop that fills [rules_ingress]. *)
Definition sg_data (raw : raw_security_group) : result security_group :=
  permissions <-- subscript "IpPermissions" (IpPermissions raw) ;;
  rules_ingress <-- each rule_data permissions ;;
  id <-- subscript "GroupId" (GroupId raw) ;;
  name <-- subscript "GroupName" (GroupName raw) ;;
  description <-- subscript "Description" (Description raw) ;;
  Ok {| sg_id := Some id; sg_name := Some name; sg_description := Some description;
        sg_rules_ingress := Some rules_ingress |}.

(** [vpc['subnets'].append(subnet_data)] *)
Definition append_subnet (v : vpc) (s : subnet) : result vpc :=
  subnets <-- subscript "subnets" (vpc_subnets v) ;;
  Ok {| vpc_id := vpc_id v; vpc_name := vpc_name v; vpc_cidr := vpc_cidr v;
        vpc_subnets := Some (subnets ++ [s])%list;
        vpc_route_tables := vpc_route_tables v;
        vpc_security_groups := vpc_security_groups v |}.

(** [vpc['route_tables'].append(rt_data)] *)
Definition append_route_table (v : vpc) (rt : route_table) : result vpc :=
  route_tables <-- subscript "route_tables" (vpc_route_tables v) ;;
  Ok {| vpc_id := vpc_id v; vpc_name := vpc_name v; vpc_cidr := vpc_cidr v;
        vpc_subnets := vpc_subnets v;
        vpc_route_tables := Some (route_tables ++ [rt])%list;
        vpc_security_groups := vpc_security_groups v |}.

(** [vpc['security_groups'].append(sg_data)] *)
Definition append_security_group (v : vpc) (sg : security_group) : result vpc :=
  security_groups <-- subscript "security_groups" (vpc_security_groups v) ;;
  Ok {| vpc_id := vpc_id v; vpc_name := vpc_name v; vpc_cidr := vpc_cidr v;
        vpc_subnets := vpc_subnets v;
        vpc_route_tables := vpc_route_tables v;
        vpc_security_groups := Some (security_groups ++ [sg])%list |}.

(** [for raw in raws: vpc[...].append(build(raw))] *)
Fixpoint fill {R E} (build : R -> result E) (append : vpc -> E -> result vpc)
         (raws : list R) (v : vpc) : result vpc :=
  match raws with
  | [] => Ok v
  | raw :: rest =>
      built <-- build raw ;;
      v' <-- append v built ;;
      fill build append rest v'
  end.

(** The body of each of the three loops [for vpc in vpcs]. *)
Definition collect_subnets (ec2 : ec2_client) (v : vpc) : result vpc :=
  id <-- subscript "id" (vpc_id v) ;;
  raws <-- subscript "Subnets" (describe_subnets ec2 id) ;;
  fill subnet_data append_subnet raws v.

Definition collect_route_tables (ec2 : ec2_client) (v : vpc) : result vpc :=
  id <-- subscript "id" (vpc_id v) ;;
  raws <-- subscript "RouteTables" (describe_route_tables ec2 id) ;;
  fill rt_data append_route_table raws v.

Definition collect_security_groups (ec2 : ec2_client) (v : vpc) : result vpc :=
  id <-- subscript "id" (vpc_id v) ;;
  raws <-- subscript "SecurityGroups" (describe_security_groups ec2 id) ;;
  fill sg_data append_security_group raws v.

(** [get_network_resources] up to [network_data]. *)
Definition collect (ec2 : ec2_client) (aws_request_id : string) : result network_data :=
  raw_vpcs <-- subscript "Vpcs" (describe_vpcs ec2) ;;
  vpcs <-- each vpc_data raw_vpcs ;;
  vpcs <-- each (collect_subnets ec2) vpcs ;;
  vpcs <-- each (collect_route_tables ec2) vpcs ;;
  vpcs <-- each (collect_security_groups ec2) vpcs ;;
  Ok {| nd_timestamp := Some aws_request_id;
        nd_region := Some (region_name ec2);
        nd_vpcs := Some vpcs |}.

(** *** Responses that carry every key the collector subscripts *)

Definition tag_complete (tag : raw_tag) : bool :=
  match tag_Key tag, tag_Value tag with
  | Some _, Some _ => true
  | _, _ => false
  end.

Definition tags_complete (tags : option (list raw_tag)) : bool :=
  forallb tag_complete (get tags []).

Definition raw_vpc_complete (raw : raw_vpc) : bool :=
  Expected.present (VpcId raw) && (tags_complete (vpc_Tags raw)
    && Expected.present (vpc_CidrBlock raw)).

Definition raw_subnet_complete (raw : raw_subnet) : bool :=
  Expected.present (SubnetId raw) && (tags_complete (subnet_Tags raw)
    && (Expected.present (subnet_CidrBlock raw)
    && Expected.present (AvailabilityZone raw))).

Definition raw_route_table_complete (rt : raw_route_table) : bool :=
  Expected.present (Routes rt) && (Expected.present (RouteTableId rt)
    && tags_complete (rt_Tags rt)).

Definition raw_permission_complete (rule : raw_permission) : bool :=
  forallb (fun ip_range => Expected.present (CidrIp ip_range)) (get (IpRanges rule) []).

Definition raw_security_group_complete (sg : raw_security_group) : bool :=
  Expected.present (IpPermissions sg)
    && (forallb raw_permission_complete (get (IpPermissions sg) [])
    && (Expected.present (GroupId sg) && (Expected.present (GroupName sg)
    && Expected.present (Description sg)))).

Definition all_complete {A} (complete : A -> bool) (response : option (list A)) : bool :=
  Expected.present response && forallb complete (get response []).

(** Every response the collector asks for is complete. *)
Definition responses_complete (ec2 : ec2_client) : Prop :=
  all_complete raw_vpc_complete (describe_vpcs ec2) = true
  /\ forall id,
      all_complete raw_subnet_complete (describe_subnets ec2 id) = true
      /\ all_complete raw_route_table_complete (describe_route_tables ec2 id) = true
      /\ all_complete raw_security_group_complete (describe_security_groups ec2 id)
         = true.

(** *** A sample account *)

Definition sample_client : ec2_client :=
  {| describe_vpcs :=
       Some [ {| VpcId := Some "vpc-1";
                 vpc_Tags := Some [ {| tag_Key := Some "Env"; tag_Value := Some "prod" |};
                                    {| tag_Key := Some "Name"; tag_Value := Some "main" |} ];
                 vpc_CidrBlock := Some "10.0.0.0/16" |} ];
     describe_subnets := fun _ =>
       Some [ {| SubnetId := Some "subnet-1"; subnet_Tags := None;
                 subnet_CidrBlock := Some "10.0.1.0/24";
                 AvailabilityZone := Some "us-east-1a";
                 MapPublicIpOnLaunch := Some true |};
              {| SubnetId := Some "subnet-2"; subnet_Tags := None;
                 subnet_CidrBlock := Some "10.0.2.0/24";
                 AvailabilityZone := Some "us-east-1b";
                 MapPublicIpOnLaunch := None |} ];
     describe_route_tables := fun _ =>
       Some [ {| Routes := Some [ [("DestinationCidrBlock", "0.0.0.0/0");
                                   ("GatewayId", "igw-1"); ("State", "active")];
                                  [("DestinationPrefixListId", "pl-1")] ];
                 RouteTableId := Some "rtb-1"; rt_Tags := None;
                 Associations := Some [ {| assoc_SubnetId := None |};
                                        {| assoc_SubnetId := Some "subnet-1" |} ] |} ];
     describe_security_groups := fun _ =>
       Some [ {| IpPermissions :=
                   Some [ {| FromPort := Some 80%Z; ToPort := Some 80%Z;
                             IpProtocol := Some "tcp";
                             IpRanges := Some [ {| CidrIp := Some "0.0.0.0/0" |} ] |};
                          {| FromPort := None; ToPort := None;
                             IpProtocol := Some "-1"; IpRanges := None |} ];
                 GroupId := Some "sg-1"; GroupName := Some "web";
                 Description := Some "web tier" |} ];
     region_name := "us-east-1" |}.

End Collector.

(** ** What the collector builds *)

Module Built.

Import Expected.

Definition all {A} (p : A -> bool) (field : option (list A)) : bool :=
  present field && forallb p (elements field).

(** A subnet with the keys the generator subscripts. *)
Definition subnet_built (s : subnet) : bool :=
  present (subnet_id s) && (present (subnet_cidr s) && present (subnet_az s)).

(** A VPC whose own keys, subnets, route tables and security groups all
    carry the keys the generator subscripts. *)
Definition vpc_built (v : vpc) : bool :=
  present (vpc_id v) && (present (vpc_name v) && (present (vpc_cidr v)
    && (all subnet_built (vpc_subnets v)
    && (all rt_ok (vpc_route_tables v) && all sg_ok (vpc_security_groups v))))).

(** A tag that is not the [Name] tag and has a [Key]. *)
Definition other_tag (tag : Collector.raw_tag) : bool :=
  match Collector.tag_Key tag with
  | Some key => negb (String.eqb key "Name")
  | None => false
  end.

(** Is the route table associated with some subnet of [v]? *)
Definition somewhere (v : vpc) (rt : route_table) : bool :=
  existsb (fun s => associated s rt) (elements (vpc_subnets v)).

(** [v] without the route tables that are associated with none of its
    subnets. *)
Definition without_unassociated (v : vpc) : vpc :=
  {| vpc_id := vpc_id v; vpc_name := vpc_name v; vpc_cidr := vpc_cidr v;
     vpc_subnets := vpc_subnets v;
     vpc_route_tables :=
       option_map (filter (somewhere v)) (vpc_route_tables v);
     vpc_security_groups := vpc_security_groups v |}.

End Built.

(** ** The nesting of the emitted lines *)

Module Layout.

Inductive mark : Type :=
| Open (depth : nat)
| Close (depth : nat)
| Inside (depth : nat)
| Plain.

(** What a line is, by its indentation and first word: the opening or the
    closing of a block of a depth (1 for a VPC, 2 for an availability
    zone, 3 for a subnet), a node or edge inside a subnet block, or a line
    of the top level. *)
Definition classify (line : string) : mark :=
  if Py.startswith line "    subgraph " then Open 1
  else if Py.startswith line "        subgraph " then Open 2
  else if Py.startswith line "            subgraph " then Open 3
  else if String.eqb line "    end" then Close 1
  else if String.eqb line "        end" then Close 2
  else if String.eqb line "            end" then Close 3
  else if Py.startswith line "                " then Inside 3
  else Plain.

(** Read the lines with the stack of open blocks, innermost first.  A
    block of depth [d] opens inside exactly [d - 1] open blocks; a closing
    line closes the innermost block, which has its depth; a node or edge
    of depth [d] stands inside exactly [d] open blocks; a top-level line
    stands outside every block. *)
Fixpoint nest (lines : list string) (opened : list nat) : option (list nat) :=
  match lines with
  | [] => Some opened
  | line :: rest =>
      match classify line with
      | Open d =>
          if Nat.eqb d (S (List.length opened)) then nest rest (d :: opened) else None
      | Close d =>
          match opened with
          | d' :: outer => if Nat.eqb d d' then nest rest outer else None
          | [] => None
          end
      | Inside d => if Nat.eqb d (List.length opened) then nest rest opened else None
      | Plain =>
          match opened with
          | [] => nest rest []
          | _ :: _ => None
          end
      end
  end.

(** Every line that opens a subnet block starts like this. *)
Definition subnet_open_prefix : string := "            subgraph subnet_".

(** Every line that opens an availability-zone block starts like this. *)
Definition az_open_prefix : string := "        subgraph ".

End Layout.

(** ** More sample models *)

Module Samples.

(** A VPC whose second subnet has no [az]. *)
Definition vpc_missing_az : vpc :=
  {| vpc_id := Some "vpc-1"; vpc_name := Some "main"; vpc_cidr := Some "10.0.0.0/16";
     vpc_subnets := Some [Example.subnet_1;
                          {| subnet_id := Some "subnet-3"; subnet_name := None;
                             subnet_cidr := Some "10.0.3.0/24";
                             subnet_az := None; subnet_public := None |}];
     vpc_route_tables := Some []; vpc_security_groups := Some [] |}.

(** A VPC with no subnets, and without [route_tables] and
    [security_groups]. *)
Definition vpc_no_subnets : vpc :=
  {| vpc_id := Some "vpc-7"; vpc_name := Some "empty"; vpc_cidr := Some "10.7.0.0/16";
     vpc_subnets := Some []; vpc_route_tables := None; vpc_security_groups := None |}.

(** [vpc_1] of the example with a second route table that no subnet is
    associated with and that has neither [id] nor [routes]. *)
Definition vpc_with_main_table : vpc :=
  {| vpc_id := Some "vpc-1"; vpc_name := Some "main"; vpc_cidr := Some "10.0.0.0/16";
     vpc_subnets := Some [Example.subnet_1];
     vpc_route_tables := Some [Example.rtb_1; Absent.rtb_bare];
     vpc_security_groups := Some [Example.sg_1] |}.

(** A VPC with four subnets: the first and the last with [public] set,
    the second with [public] false, the third without [public]. *)
Definition vpc_mixed_flags : vpc :=
  {| vpc_id := Some "vpc-1"; vpc_name := Some "main"; vpc_cidr := Some "10.0.0.0/16";
     vpc_subnets := Some [Example.subnet_1;
                          {| subnet_id := Some "subnet-9"; subnet_name := Some "Unnamed";
                             subnet_cidr := Some "10.0.9.0/24";
                             subnet_az := Some "us-east-1a";
                             subnet_public := Some false |};
                          Absent.subnet_bare;
                          {| subnet_id := Some "subnet-4"; subnet_name := Some "Unnamed";
                             subnet_cidr := Some "10.0.4.0/24";
                             subnet_az := Some "us-east-1b";
                             subnet_public := Some true |}];
     vpc_route_tables := Some []; vpc_security_groups := Some [] |}.

(** The route tables of a [describe_route_tables] response: a main route
    table, whose association has no [SubnetId]; a table associated with
    [subnet-1]; a table associated with another subnet; a table without
    [Associations]. *)
Definition raw_tables : list Collector.raw_route_table :=
  [ {| Collector.Routes := Some [];
       Collector.RouteTableId := Some "rtb-main";
       Collector.rt_Tags := None;
       Collector.Associations := Some [ {| Collector.assoc_SubnetId := None |} ] |};
    {| Collector.Routes := Some [ [("DestinationCidrBlock", "0.0.0.0/0");
                                   ("GatewayId", "igw-1")] ];
       Collector.RouteTableId := Some "rtb-1";
       Collector.rt_Tags := None;
       Collector.Associations :=
         Some [ {| Collector.assoc_SubnetId := None |};
                {| Collector.assoc_SubnetId := Some "subnet-1" |} ] |};
    {| Collector.Routes := Some [];
       Collector.RouteTableId := Some "rtb-7";
       Collector.rt_Tags := None;
       Collector.Associations := Some [ {| Collector.assoc_SubnetId := Some "subnet-7" |} ] |};
    {| Collector.Routes := Some [];
       Collector.RouteTableId := Some "rtb-8";
       Collector.rt_Tags := None;
       Collector.Associations := None |} ].

(** What the collector builds from [raw_tables]. *)
Definition built_tables : list route_table :=
  [ {| rt_id := Some "rtb-main"; rt_name := Some "Unnamed"; rt_routes := Some [];
       rt_subnet_associations := Some [] |};
    Example.rtb_1;
    {| rt_id := Some "rtb-7"; rt_name := Some "Unnamed"; rt_routes := Some [];
       rt_subnet_associations := Some ["subnet-7"] |};
    {| rt_id := Some "rtb-8"; rt_name := Some "Unnamed"; rt_routes := Some [];
       rt_subnet_associations := Some [] |} ].

(** [vpc_1] of the example holding [built_tables]. *)
Definition vpc_with_built_tables : vpc :=
  {| vpc_id := Some "vpc-1"; vpc_name := Some "main"; vpc_cidr := Some "10.0.0.0/16";
     vpc_subnets := Some [Example.subnet_1];
     vpc_route_tables := Some built_tables;
     vpc_security_groups := Some [] |}.

(** The subnets of a [describe_subnets] response: one with
    [MapPublicIpOnLaunch] true, one without it, one with it false. *)
Definition raw_subnets : list Collector.raw_subnet :=
  [ {| Collector.SubnetId := Some "subnet-1"; Collector.subnet_Tags := None;
       Collector.subnet_CidrBlock := Some "10.0.1.0/24";
       Collector.AvailabilityZone := Some "us-east-1a";
       Collector.MapPublicIpOnLaunch := Some true |};
    {| Collector.SubnetId := Some "subnet-2"; Collector.subnet_Tags := None;
       Collector.subnet_CidrBlock := Some "10.0.2.0/24";
       Collector.AvailabilityZone := Some "us-east-1b";
       Collector.MapPublicIpOnLaunch := None |};
    {| Collector.SubnetId := Some "subnet-3"; Collector.subnet_Tags := None;
       Collector.subnet_CidrBlock := Some "10.0.3.0/24";
       Collector.AvailabilityZone := Some "us-east-1a";
       Collector.MapPublicIpOnLaunch := Some false |} ].

(** What the collector builds from [raw_subnets]. *)
Definition built_subnets : list subnet :=
  [ Example.subnet_1;
    {| subnet_id := Some "subnet-2"; subnet_name := Some "Unnamed";
       subnet_cidr := Some "10.0.2.0/24"; subnet_az := Some "us-east-1b";
       subnet_public := Some false |};
    {| subnet_id := Some "subnet-3"; subnet_name := Some "Unnamed";
       subnet_cidr := Some "10.0.3.0/24"; subnet_az := Some "us-east-1a";
       subnet_public := Some false |} ].

(** [vpc_1] of the example holding [built_subnets]. *)
Definition vpc_with_built_subnets : vpc :=
  {| vpc_id := Some "vpc-1"; vpc_name := Some "main"; vpc_cidr := Some "10.0.0.0/16";
     vpc_subnets := Some built_subnets;
     vpc_route_tables := Some []; vpc_security_groups := Some [] |}.

(** Two routes of a response, the second with a key before its
    destination. *)
Definition raw_routes : list Mapper.raw_route :=
  [ [("DestinationCidrBlock", "0.0.0.0/0"); ("GatewayId", "igw-1")];
    [("State", "active"); ("DestinationCidrBlock", "10.0.0.0/16");
     ("GatewayId", "local")] ].


End Samples.

(** * Proofs *)

Import NetworkDiagramGenerator Expected.

(** ** The sanitizer *)

Lemma replace_from_hyphen (s : string) :
  Py.replace_from "-" "_" 0 s = hyphens_to_underscores s.
Proof.
  induction s as [|c rest IH]; [reflexivity|].
  cbn [Py.replace_from hyphens_to_underscores Py.startswith String.length Nat.sub].
  rewrite andb_true_r, IH, (Ascii.eqb_sym "-" c).
  destruct (Ascii.eqb c "-"); reflexivity.
Qed.

Lemma sanitize_chars (x : string) : sanitize x = hyphens_to_underscores x.
Proof. apply replace_from_hyphen. Qed.

Lemma hyphens_to_underscores_get (x : string) (n : nat) :
  String.get n (hyphens_to_underscores x)
  = option_map (fun c => if Ascii.eqb c "-" then "_"%char else c) (String.get n x).
Proof.
  revert n; induction x as [|c rest IH]; intros [|n]; cbn; auto.
Qed.

Lemma hyphens_to_underscores_length (x : string) :
  String.length (hyphens_to_underscores x) = String.length x.
Proof. induction x; cbn; congruence. Qed.

Lemma hyphens_to_underscores_clean (x : string) :
  Py.has_char "-" (hyphens_to_underscores x) = false.
Proof.
  induction x as [|c rest IH]; [reflexivity|].
  cbn [hyphens_to_underscores Py.has_char]. rewrite IH, orb_false_r.
  destruct (Ascii.eqb c "-") eqn:E; [reflexivity|].
  rewrite Ascii.eqb_sym. exact E.
Qed.

Lemma hyphens_to_underscores_fixed (x : string) :
  Py.has_char "-" x = false -> hyphens_to_underscores x = x.
Proof.
  induction x as [|c rest IH]; [reflexivity|].
  cbn [hyphens_to_underscores Py.has_char]. intros H.
  apply orb_false_elim in H as [Hc Hrest].
  rewrite Ascii.eqb_sym in Hc. rewrite Hc, IH by assumption. reflexivity.
Qed.

(** ** Runs *)

Lemma extend_by_nil (self : generator) : extend_by self [] = self.
Proof. destruct self; unfold extend_by; cbn. now rewrite app_nil_r. Qed.

Lemma extend_by_app (self : generator) (l1 l2 : list string) :
  extend_by (extend_by self l1) l2 = extend_by self (l1 ++ l2)%list.
Proof. unfold extend_by; cbn. now rewrite app_assoc. Qed.

Lemma behaves_eq {A} (m : M A) ok ok' a lines lines' :
  behaves m ok a lines -> ok = ok' -> lines = lines' -> behaves m ok' a lines'.
Proof. intros H <- <-. exact H. Qed.

Lemma behaves_ret {A} (a : A) : behaves (ret a) true a [].
Proof. intros self. cbn. now rewrite extend_by_nil. Qed.

Lemma behaves_getitem {A} (key : string) (field : option A) (default : A) :
  is_subscripted key = true ->
  behaves (getitem key field) (present field) (get field default) [].
Proof.
  intros Hk self. destruct field as [x|]; cbn.
  - now rewrite extend_by_nil.
  - exists key, []. now rewrite extend_by_nil.
Qed.

Lemma behaves_extend (lines : list string) : behaves (diagram_extend lines) true tt lines.
Proof. intros self. reflexivity. Qed.

Lemma behaves_append (line : string) : behaves (diagram_append line) true tt [line].
Proof. intros self. reflexivity. Qed.

Lemma behaves_bind {A B} (m : M A) (k : A -> M B) ok1 ok2 a b l1 l2 :
  behaves m ok1 a l1 ->
  (ok1 = true -> behaves (k a) ok2 b l2) ->
  behaves (bind m k) (ok1 && ok2) b (l1 ++ l2)%list.
Proof.
  intros Hm Hk self. specialize (Hm self). unfold bind.
  destruct ok1; cbn [andb].
  - rewrite Hm. specialize (Hk eq_refl (extend_by self l1)).
    destruct ok2.
    + now rewrite Hk, extend_by_app.
    + destruct Hk as (key & l' & -> & Hkey).
      exists key, (l1 ++ l')%list. now rewrite extend_by_app.
  - destruct Hm as (key & l' & -> & Hkey). now exists key, l'.
Qed.

Lemma behaves_if {A} (c : bool) (m1 m2 : M A) ok1 ok2 a l1 l2 :
  behaves m1 ok1 a l1 -> behaves m2 ok2 a l2 ->
  behaves (if c then m1 else m2) (if c then ok1 else ok2) a (if c then l1 else l2).
Proof. now destruct c. Qed.

Lemma behaves_for_each {A} (body : A -> M unit) (ok : A -> bool)
      (lines : A -> list string) (xs : list A) :
  (forall x, behaves (body x) (ok x) tt (lines x)) ->
  behaves (for_each xs body) (forallb ok xs) tt (flat_map lines xs).
Proof.
  intros Hbody. induction xs as [|x rest IH]; cbn [for_each forallb flat_map].
  - apply behaves_ret.
  - eapply behaves_bind; [apply Hbody | intros _; exact IH].
Qed.

Lemma behaves_comprehension {A B} (f : A -> M B) (ok : A -> bool) (g : A -> B)
      (xs : list A) :
  (forall x, behaves (f x) (ok x) (g x) []) ->
  behaves (comprehension f xs) (forallb ok xs) (map g xs) [].
Proof.
  intros Hf. induction xs as [|x rest IH]; cbn [comprehension forallb map].
  - apply behaves_ret.
  - eapply behaves_eq.
    + eapply behaves_bind; [apply Hf|intros _].
      eapply behaves_bind; [exact IH|intros _]. apply behaves_ret.
    + now rewrite andb_true_r.
    + reflexivity.
Qed.

Lemma behaves_data {A} (m : M A) ok a lines self :
  behaves m ok a lines -> data (snd (m self)) = data self.
Proof.
  intros H. specialize (H self). destruct ok.
  - now rewrite H.
  - destruct H as (key & l' & -> & _). reflexivity.
Qed.

(** ** The methods *)

Lemma _add_route_table_behaves (rt : route_table) (subnet_id : string) :
  behaves (_add_route_table rt subnet_id) (rt_ok rt) tt (rt_lines subnet_id rt).
Proof.
  unfold _add_route_table, rt_ok.
  eapply behaves_eq.
  - eapply behaves_bind; [apply (behaves_getitem _ _ EmptyString); reflexivity|intros _].
    eapply behaves_bind; [apply (behaves_getitem _ _ []); reflexivity|intros _].
    eapply behaves_bind; [|intros _; apply behaves_extend].
    apply (behaves_comprehension _ route_ok route_label).
    intros r. unfold route_ok, route_label.
    eapply behaves_eq.
    + eapply behaves_bind; [apply (behaves_getitem _ _ EmptyString); reflexivity|intros _].
      eapply behaves_bind; [apply (behaves_getitem _ _ EmptyString); reflexivity|intros _].
      apply behaves_ret.
    + now rewrite andb_true_r.
    + reflexivity.
  - now rewrite andb_true_r.
  - reflexivity.
Qed.

Lemma _add_security_group_behaves (sg : security_group) (subnet_id : string) :
  behaves (_add_security_group sg subnet_id) (sg_ok sg) tt (sg_lines subnet_id sg).
Proof.
  unfold _add_security_group, sg_ok.
  eapply behaves_eq.
  - eapply behaves_bind; [apply (behaves_getitem _ _ EmptyString); reflexivity|intros _].
    eapply behaves_bind; [apply (behaves_getitem _ _ []); reflexivity|intros _].
    eapply behaves_bind; [apply (behaves_comprehension _ rule_ok rule_label)|intros _].
    + intros r. unfold rule_ok, rule_label.
      eapply behaves_eq.
      * eapply behaves_bind; [apply (behaves_getitem _ _ EmptyString); reflexivity|intros _].
        eapply behaves_bind; [apply (behaves_getitem _ _ EmptyString); reflexivity|intros _].
        eapply behaves_bind; [apply (behaves_getitem _ _ []); reflexivity|intros _].
        apply behaves_ret.
      * now rewrite andb_true_r.
      * reflexivity.
    + eapply behaves_bind; [apply (behaves_getitem _ _ EmptyString); reflexivity|intros _].
      apply behaves_extend.
  - now rewrite andb_true_r.
  - reflexivity.
Qed.

(** ** Lists *)

Section ListFacts.

Context {A : Type}.

Lemma flat_map_if {B} (c : A -> bool) (f : A -> list B) (xs : list A) :
  flat_map (fun x => if c x then f x else []) xs = flat_map f (filter c xs).
Proof.
  induction xs as [|x rest IH]; [reflexivity|].
  cbn [flat_map filter]. destruct (c x); cbn [flat_map app]; now rewrite IH.
Qed.

Lemma flat_map_unit {B} (f : A -> B) (xs : list A) :
  flat_map (fun x => [f x]) xs = map f xs.
Proof. induction xs as [|x rest IH]; cbn; congruence. Qed.

Lemma forallb_flat_map {B} (p : B -> bool) (f : A -> list B) (xs : list A) :
  forallb p (flat_map f xs) = forallb (fun x => forallb p (f x)) xs.
Proof.
  induction xs as [|x rest IH]; [reflexivity|].
  cbn [flat_map forallb]. now rewrite forallb_app, IH.
Qed.

Lemma forallb_permutation (p : A -> bool) (xs ys : list A) :
  Permutation xs ys -> forallb p xs = forallb p ys.
Proof.
  induction 1; cbn [forallb]; try congruence.
  now rewrite !andb_assoc, (andb_comm (p y)).
Qed.

Lemma filter_all (p : A -> bool) (xs : list A) :
  forallb p xs = true -> filter p xs = xs.
Proof.
  induction xs as [|x rest IH]; [reflexivity|].
  cbn [forallb filter]. intros H. apply andb_prop in H as [-> H].
  now rewrite IH.
Qed.

Lemma filter_none (p : A -> bool) (xs : list A) :
  (forall x, In x xs -> p x = false) -> filter p xs = [].
Proof.
  induction xs as [|x rest IH]; [reflexivity|].
  intros H. cbn [filter]. rewrite (H x) by now left.
  apply IH. intros y Hy. apply H. now right.
Qed.

(** Two disjoint filters split the filter of their disjunction. *)
Lemma filter_split (p q : A -> bool) (xs : list A) :
  (forall x, p x = true -> q x = false) ->
  Permutation (filter p xs ++ filter q xs) (filter (fun x => p x || q x) xs).
Proof.
  intros Hpq. induction xs as [|x rest IH]; [constructor|].
  cbn [filter]. destruct (p x) eqn:Hp; cbn [orb].
  - rewrite (Hpq x Hp). cbn [app]. now constructor.
  - destruct (q x).
    + symmetry. apply Permutation_cons_app. now symmetry.
    + exact IH.
Qed.

End ListFacts.

(** ** First occurrences *)

Lemma first_occurrences_In (x : string) (xs : list string) :
  In x (first_occurrences xs) <-> In x xs.
Proof.
  induction xs as [|y rest IH]; [reflexivity|].
  cbn [first_occurrences In]. rewrite filter_In, IH.
  destruct (String.eqb_spec x y) as [->|Hxy].
  - split; auto.
  - split.
    + intros [H|[H _]]; auto.
    + intros [H|H]; [now left|right]. split; [exact H|].
      reflexivity.
Qed.

Lemma first_occurrences_NoDup (xs : list string) : NoDup (first_occurrences xs).
Proof.
  induction xs as [|y rest IH]; [constructor|].
  cbn [first_occurrences]. constructor.
  - rewrite filter_In. intros [_ H].
    now rewrite String.eqb_refl in H.
  - now apply NoDup_filter.
Qed.

Lemma first_occurrences_snoc (xs : list string) (a : string) :
  first_occurrences (xs ++ [a])
  = if in_dec string_dec a xs then first_occurrences xs
    else (first_occurrences xs ++ [a])%list.
Proof.
  induction xs as [|x rest IH]; [reflexivity|].
  cbn [app first_occurrences]. rewrite IH.
  destruct (in_dec string_dec a rest) as [Hin|Hout];
    destruct (in_dec string_dec a (x :: rest)) as [Hin'|Hout'];
    try reflexivity.
  - exfalso. apply Hout'. now right.
  - rewrite filter_app. cbn [filter].
    destruct Hin' as [->|Hin']; [|contradiction].
    now rewrite String.eqb_refl, app_nil_r.
  - rewrite filter_app. cbn [filter].
    destruct (String.eqb_spec a x) as [->|Hax]; [|reflexivity].
    exfalso. apply Hout'. now left.
Qed.

(** The number of distinct values. *)
Lemma first_occurrences_length (xs : list string) :
  List.length (first_occurrences xs) = List.length (nodup string_dec xs).
Proof.
  apply Permutation_length, NoDup_Permutation.
  - apply first_occurrences_NoDup.
  - apply NoDup_nodup.
  - intros x. now rewrite first_occurrences_In, nodup_In.
Qed.

(** ** The dictionary *)

Section DictFacts.

Context {V : Type}.

Lemma mem_tabulate (f : string -> V) (ks : list string) (a : string) :
  Dict.mem a (tabulate f ks) = Py.contains a ks.
Proof.
  unfold Dict.mem, Py.contains, tabulate.
  induction ks as [|k rest IH]; [reflexivity|].
  cbn [map existsb fst]. now rewrite IH, String.eqb_sym.
Qed.

Lemma set_tabulate_new (f : string -> V) (ks : list string) (a : string) (v : V) :
  ~ In a ks -> Dict.set a v (tabulate f ks) = (tabulate f ks ++ [(a, v)])%list.
Proof.
  unfold tabulate. induction ks as [|k rest IH]; [reflexivity|].
  intros Hout. cbn [map Dict.set app].
  destruct (String.eqb_spec k a) as [->|Hka].
  - exfalso. apply Hout. now left.
  - rewrite IH; [reflexivity|]. intros H. apply Hout. now right.
Qed.

End DictFacts.

Lemma append_tabulate {V} (f : string -> list V) (ks : list string) (a : string) (x : V) :
  NoDup ks ->
  Dict.append a x (tabulate f ks)
  = tabulate (fun k => if String.eqb k a then (f k ++ [x])%list else f k) ks.
Proof.
  unfold tabulate. induction 1 as [|k rest Hk Hnd IH]; [reflexivity|].
  cbn [map Dict.append].
  destruct (String.eqb_spec k a) as [->|Hka].
  - f_equal. apply map_ext_in. intros k Hin.
    destruct (String.eqb_spec k a) as [->|]; [contradiction|reflexivity].
  - now rewrite IH.
Qed.

Lemma append_new {V} (d : Dict.t (list V)) (a : string) (xs : list V) (x : V) :
  ~ In a (Dict.keys d) ->
  Dict.append a x (d ++ [(a, xs)])%list = (d ++ [(a, (xs ++ [x])%list)])%list.
Proof.
  induction d as [|[k v] rest IH]; cbn [app Dict.append Dict.keys map fst].
  - now rewrite String.eqb_refl.
  - intros Hout. destruct (String.eqb_spec k a) as [->|Hka].
    + exfalso. apply Hout. now left.
    + rewrite IH; [reflexivity|]. intros H. apply Hout. now right.
Qed.

Lemma contains_In (a : string) (xs : list string) :
  Py.contains a xs = true <-> In a xs.
Proof.
  unfold Py.contains. rewrite existsb_exists. split.
  - intros (y & Hy & E). apply String.eqb_eq in E. now subst.
  - intros H. exists a. split; [exact H|apply String.eqb_refl].
Qed.

(** ** Grouping by availability zone *)

Lemma group_step_groupByAZ (done : list subnet) (s : subnet) :
  group_step (groupByAZ done) s = groupByAZ (done ++ [s]).
Proof.
  unfold group_step, groupByAZ. rewrite mem_tabulate.
  rewrite map_app. cbn [map]. rewrite first_occurrences_snoc.
  destruct (in_dec string_dec (az_of s) (map az_of done)) as [Hin|Hout].
  - assert (Hc : Py.contains (az_of s) (first_occurrences (map az_of done)) = true)
      by now apply contains_In, first_occurrences_In.
    rewrite Hc. cbn [negb].
    rewrite append_tabulate by apply first_occurrences_NoDup.
    unfold tabulate. apply map_ext. intros az.
    rewrite filter_app. cbn [filter]. rewrite (String.eqb_sym az).
    destruct (String.eqb (az_of s) az); [reflexivity|now rewrite app_nil_r].
  - assert (Hout' : ~ In (az_of s) (first_occurrences (map az_of done)))
      by now rewrite first_occurrences_In.
    assert (Hc : Py.contains (az_of s) (first_occurrences (map az_of done)) = false).
    { destruct (Py.contains _ _) eqn:E; [|reflexivity].
      apply contains_In in E. contradiction. }
    rewrite Hc. cbn [negb].
    rewrite set_tabulate_new by assumption.
    rewrite append_new.
    2:{ unfold Dict.keys, tabulate. rewrite map_map. cbn [fst]. now rewrite map_id. }
    unfold tabulate. rewrite map_app. cbn [map]. f_equal.
    + apply map_ext_in. intros az Haz. rewrite filter_app. cbn [filter].
      destruct (String.eqb_spec (az_of s) az) as [<-|]; [contradiction|].
      now rewrite app_nil_r.
    + rewrite filter_app. cbn [filter]. rewrite String.eqb_refl.
      rewrite filter_none; [reflexivity|].
      intros s' Hs'. apply String.eqb_neq. intros E. apply Hout.
      rewrite <- E. now apply in_map.
Qed.

Lemma group_from_groupByAZ (done subnets : list subnet) :
  group_from (groupByAZ done) subnets = groupByAZ (done ++ subnets).
Proof.
  revert done. induction subnets as [|s rest IH]; intros done.
  - now rewrite app_nil_r.
  - cbn [group_from fold_left]. rewrite group_step_groupByAZ.
    change (fold_left group_step rest ?d) with (group_from d rest).
    rewrite IH, <- app_assoc. reflexivity.
Qed.

(** The loop computes the grouping of the specification. *)
Lemma groups_groupByAZ (subnets : list subnet) : groups subnets = groupByAZ subnets.
Proof. exact (group_from_groupByAZ [] subnets). Qed.

Lemma groupByAZ_keys (subnets : list subnet) :
  Dict.keys (groupByAZ subnets) = first_occurrences (map az_of subnets).
Proof.
  unfold Dict.keys, groupByAZ, tabulate. rewrite map_map. cbn [fst]. apply map_id.
Qed.

Lemma cover_permutation (subnets : list subnet) (ks : list string) :
  NoDup ks ->
  Permutation
    (flat_map (fun az => filter (fun s => String.eqb (az_of s) az) subnets) ks)
    (filter (fun s => Py.contains (az_of s) ks) subnets).
Proof.
  induction 1 as [|k rest Hk Hnd IH]; cbn [flat_map].
  - rewrite filter_none; [constructor|reflexivity].
  - rewrite IH.
    rewrite (filter_split (fun s => String.eqb (az_of s) k)
                          (fun s => Py.contains (az_of s) rest)).
    + apply Permutation_refl.
    + intros s E. apply String.eqb_eq in E. rewrite E.
      destruct (Py.contains k rest) eqn:C; [|reflexivity].
      apply contains_In in C. contradiction.
Qed.

Lemma groupByAZ_permutation (subnets : list subnet) :
  Permutation (flat_map snd (groupByAZ subnets)) subnets.
Proof.
  unfold groupByAZ, tabulate. rewrite flat_map_concat_map, map_map. cbn [snd].
  rewrite <- flat_map_concat_map.
  rewrite cover_permutation by apply first_occurrences_NoDup.
  rewrite filter_all; [apply Permutation_refl|].
  apply forallb_forall. intros s Hs.
  apply contains_In, first_occurrences_In. now apply in_map.
Qed.

(** ** The methods, continued *)

Lemma _process_subnet_behaves (s : subnet) (v : vpc) :
  behaves (_process_subnet s v) (subnet_ok v s) tt (subnet_block v s).
Proof.
  unfold _process_subnet, subnet_ok.
  eapply behaves_eq.
  - eapply behaves_bind; [apply (behaves_getitem _ _ EmptyString); reflexivity|intros _].
    eapply behaves_bind; [apply (behaves_getitem _ _ EmptyString); reflexivity|intros _].
    eapply behaves_bind; [apply behaves_extend|intros _].
    eapply behaves_bind; [apply (behaves_getitem _ _ []); reflexivity|intros _].
    eapply behaves_bind.
    { apply (behaves_for_each _
               (fun rt => implb (associated s rt) (rt_ok rt))
               (fun rt => if associated s rt
                          then rt_lines (subnet_block_id s) rt else [])).
      intros rt. unfold implb. apply behaves_if.
      - apply _add_route_table_behaves.
      - apply behaves_ret. }
    intros _.
    eapply behaves_bind; [apply (behaves_getitem _ _ []); reflexivity|intros _].
    eapply behaves_bind.
    { apply (behaves_for_each _ sg_ok (sg_lines (subnet_block_id s))).
      intros sg. apply _add_security_group_behaves. }
    intros _. apply behaves_append.
  - cbn [andb]. now rewrite andb_true_r.
  - cbn [app]. rewrite flat_map_if. reflexivity.
Qed.

Lemma _process_az_behaves (az : string) (subnets : list subnet) (v : vpc) :
  behaves (_process_az az subnets v) (forallb (subnet_ok v) subnets) tt
          (az_block v (az, subnets)).
Proof.
  unfold _process_az.
  eapply behaves_eq.
  - eapply behaves_bind; [apply behaves_extend|intros _].
    eapply behaves_bind; [|intros _; apply behaves_append].
    apply (behaves_for_each _ (subnet_ok v) (subnet_block v)).
    intros s. apply _process_subnet_behaves.
  - cbn [andb]. now rewrite andb_true_r.
  - reflexivity.
Qed.

Lemma group_by_az_behaves (subnets : list subnet) (az_subnets : Dict.t (list subnet)) :
  behaves (group_by_az subnets az_subnets)
          (forallb (fun s => present (subnet_az s)) subnets)
          (group_from az_subnets subnets) [].
Proof.
  revert az_subnets. induction subnets as [|s rest IH]; intros az_subnets.
  - apply behaves_ret.
  - cbn [group_by_az forallb group_from fold_left].
    eapply behaves_eq.
    + eapply behaves_bind; [apply (behaves_getitem _ _ EmptyString); reflexivity|intros _].
      apply IH.
    + reflexivity.
    + reflexivity.
Qed.

Lemma forallb_groups (p : subnet -> bool) (subnets : list subnet) :
  forallb (fun item => forallb p (snd item)) (groups subnets) = forallb p subnets.
Proof.
  rewrite <- forallb_flat_map, groups_groupByAZ.
  apply forallb_permutation, groupByAZ_permutation.
Qed.

Lemma igw_ok_of_subnet_ok (v : vpc) (subnets : list subnet) :
  forallb (subnet_ok v) subnets = true ->
  forallb (fun s => if is_public s then present (subnet_id s) && true else true) subnets
  = true.
Proof.
  rewrite !forallb_forall. intros H s Hs. specialize (H s Hs).
  unfold subnet_ok in H. apply andb_prop in H as [-> _].
  now destruct (is_public s).
Qed.

Lemma _process_vpc_behaves (v : vpc) :
  behaves (_process_vpc v) (vpc_ok v) tt (vpc_lines v).
Proof.
  unfold _process_vpc, vpc_ok.
  eapply behaves_eq.
  - eapply behaves_bind; [apply (behaves_getitem _ _ EmptyString); reflexivity|intros _].
    eapply behaves_bind; [apply (behaves_getitem _ _ EmptyString); reflexivity|intros _].
    eapply behaves_bind; [apply (behaves_getitem _ _ EmptyString); reflexivity|intros _].
    eapply behaves_bind; [apply behaves_extend|intros _].
    eapply behaves_bind; [apply (behaves_getitem _ _ []); reflexivity|intros _].
    eapply behaves_bind; [apply group_by_az_behaves|intros _].
    eapply behaves_bind.
    { apply (behaves_for_each _ (fun item => forallb (subnet_ok v) (snd item))
                              (az_block v)).
      intros [az subnets]. apply _process_az_behaves. }
    intros _.
    eapply behaves_bind; [apply behaves_append|intros _].
    eapply behaves_bind; [apply behaves_extend|intros _].
    eapply behaves_bind; [apply (behaves_getitem _ _ []); reflexivity|intros _].
    apply (behaves_for_each _
             (fun s => if is_public s then present (subnet_id s) && true else true)
             (fun s => if is_public s then [igw_edge v s] else [])).
    intros s. apply behaves_if.
    + eapply behaves_eq.
      * eapply behaves_bind;
          [apply (behaves_getitem _ _ EmptyString); reflexivity|intros _].
        apply behaves_append.
      * reflexivity.
      * reflexivity.
    + apply behaves_ret.
  - cbn [andb]. fold (elements (vpc_subnets v)). fold (groups (elements (vpc_subnets v))).
    unfold Dict.items. rewrite forallb_groups.
    destruct (present (vpc_id v)), (present (vpc_name v)), (present (vpc_cidr v)),
      (present (vpc_subnets v)); cbn [andb]; try reflexivity.
    destruct (forallb (fun s => present (subnet_az s)) (elements (vpc_subnets v)));
      cbn [andb]; [|reflexivity].
    destruct (forallb (subnet_ok v) (elements (vpc_subnets v))) eqn:E;
      cbn [andb]; [|reflexivity].
    now rewrite (igw_ok_of_subnet_ok v) by exact E.
  - cbn [app]. unfold vpc_lines, vpc_block, igw_section.
    fold (elements (vpc_subnets v)). fold (groups (elements (vpc_subnets v))).
    unfold Dict.items.
    rewrite <- !app_comm_cons, <- app_assoc. cbn [app].
    rewrite flat_map_if, flat_map_unit.
    reflexivity.
Qed.

(** The buffer a run of [generate_diagram] leaves, and what it returns. *)
Lemma generate_diagram_run (self : generator) :
  if required_present (data self)
  then generate_diagram self
       = (Ok (Py.join (Py.nl ++ "    ") (diagram_lines (data self))),
          {| data := data self; diagram := diagram_lines (data self) |})
  else exists key lines,
      generate_diagram self
      = (Raise (KeyError key), {| data := data self; diagram := lines |})
      /\ is_subscripted key = true.
Proof.
  destruct self as [m buffer].
  cbv beta iota delta [generate_diagram required_present diagram_lines bind
                        diagram_assign self_data data].
  destruct (nd_vpcs m) as [vpcs|]; cbn [present andb elements get getitem ret raise].
  2:{ exists "vpcs", ["graph TB"]. split; reflexivity. }
  pose proof (behaves_for_each _process_vpc vpc_ok vpc_lines vpcs _process_vpc_behaves
                {| data := m; diagram := ["graph TB"] |}) as Hloop.
  destruct (forallb vpc_ok vpcs).
  - rewrite Hloop.
    cbv beta iota delta [_add_styling diagram_extend self_diagram ret extend_by
                          data diagram].
    cbn [app]. reflexivity.
  - destruct Hloop as (key & lines & -> & Hkey).
    exists key, ("graph TB" :: lines)%list. split; [reflexivity|exact Hkey].
Qed.

(** ** Reading lines back *)

Lemma starting_with_app (p : string) (l1 l2 : list string) :
  starting_with p (l1 ++ l2) = (starting_with p l1 ++ starting_with p l2)%list.
Proof. apply filter_app. Qed.

Lemma starting_with_flat_map {A} (p : string) (f : A -> list string) (xs : list A) :
  starting_with p (flat_map f xs) = flat_map (fun x => starting_with p (f x)) xs.
Proof.
  induction xs as [|x rest IH]; [reflexivity|].
  cbn [flat_map]. now rewrite starting_with_app, IH.
Qed.

Lemma flat_map_nil {A B} (f : A -> list B) (xs : list A) :
  (forall x, f x = []) -> flat_map f xs = [].
Proof.
  intros H. induction xs as [|x rest IH]; [reflexivity|].
  cbn [flat_map]. now rewrite H, IH.
Qed.

Lemma flat_map_id_on {A} (f g : A -> list string) (xs : list A) :
  (forall x, f x = g x) -> flat_map f xs = flat_map g xs.
Proof. intros H. apply flat_map_ext. exact H. Qed.

Lemma flat_map_length_const {A B} (f : A -> list B) (n : nat) (xs : list A) :
  (forall x, List.length (f x) = n) ->
  List.length (flat_map f xs) = List.length xs * n.
Proof.
  intros H. induction xs as [|x rest IH]; [reflexivity|].
  cbn [flat_map List.length]. rewrite length_app, H, IH. lia.
Qed.

(** Security-group lines within a subnet block. *)
Lemma sg_lines_of_subnet_block (v : vpc) (s : subnet) :
  starting_with sg_prefix (subnet_block v s) = sg_section v s.
Proof.
  unfold subnet_block, rt_section, sg_section.
  change (subnet_header s :: ?l) with ([subnet_header s] ++ l)%list.
  rewrite !starting_with_app, !starting_with_flat_map.
  rewrite (flat_map_nil (fun rt => starting_with sg_prefix (rt_lines _ rt)))
    by reflexivity.
  rewrite (flat_map_id_on _ (sg_lines (subnet_block_id s))) by reflexivity.
  cbn [app]. change (starting_with sg_prefix [subnet_header s]) with (@nil string).
  change (starting_with sg_prefix [subnet_footer]) with (@nil string).
  cbn [app]. apply app_nil_r.
Qed.

Lemma sg_lines_of_az_block (v : vpc) (item : string * list subnet) :
  starting_with sg_prefix (az_block v item) = flat_map (sg_section v) (snd item).
Proof.
  unfold az_block.
  change (az_header (fst item) :: ?l) with ([az_header (fst item)] ++ l)%list.
  rewrite !starting_with_app, starting_with_flat_map.
  rewrite (flat_map_id_on _ (sg_section v)) by apply sg_lines_of_subnet_block.
  change (starting_with sg_prefix [az_header (fst item)]) with (@nil string).
  change (starting_with sg_prefix [az_footer]) with (@nil string).
  cbn [app]. apply app_nil_r.
Qed.

Lemma flat_map_flat_map {A B C} (f : B -> list C) (g : A -> list B) (xs : list A) :
  flat_map f (flat_map g xs) = flat_map (fun x => flat_map f (g x)) xs.
Proof.
  induction xs as [|x rest IH]; [reflexivity|].
  cbn [flat_map]. now rewrite flat_map_app, IH.
Qed.

Lemma sg_lines_of_vpc_lines (v : vpc) :
  starting_with sg_prefix (vpc_lines v)
  = flat_map (sg_section v) (flat_map snd (groups (elements (vpc_subnets v)))).
Proof.
  unfold vpc_lines, vpc_block, igw_section.
  change (vpc_header v :: ?l) with ([vpc_header v] ++ l)%list.
  rewrite !starting_with_app, starting_with_flat_map.
  rewrite (flat_map_id_on _ (fun item => flat_map (sg_section v) (snd item)))
    by apply sg_lines_of_az_block.
  change (starting_with sg_prefix [vpc_header v]) with (@nil string).
  change (starting_with sg_prefix [vpc_footer]) with (@nil string).
  change (igw_node v :: ?l) with ([igw_node v] ++ l)%list.
  rewrite starting_with_app.
  change (starting_with sg_prefix [igw_node v]) with (@nil string).
  rewrite <- (flat_map_unit (igw_edge v)), starting_with_flat_map.
  rewrite (flat_map_nil (fun s => starting_with sg_prefix [igw_edge v s])) by reflexivity.
  cbn [app]. rewrite !app_nil_r. symmetry. apply flat_map_flat_map.
Qed.

(** Internet-Gateway lines within the containment block of a VPC: none. *)
Lemma igw_lines_of_vpc_block (v : vpc) :
  starting_with igw_prefix (vpc_block v) = [].
Proof.
  unfold vpc_block.
  change (vpc_header v :: ?l) with ([vpc_header v] ++ l)%list.
  rewrite !starting_with_app, starting_with_flat_map.
  rewrite flat_map_nil; [reflexivity|].
  intros item. unfold az_block.
  change (az_header (fst item) :: ?l) with ([az_header (fst item)] ++ l)%list.
  rewrite !starting_with_app, starting_with_flat_map.
  rewrite flat_map_nil; [reflexivity|].
  intros s. unfold subnet_block, rt_section, sg_section.
  change (subnet_header s :: ?l) with ([subnet_header s] ++ l)%list.
  rewrite !starting_with_app, !starting_with_flat_map.
  rewrite !flat_map_nil; reflexivity.
Qed.

Lemma igw_lines_of_igw_section (v : vpc) :
  starting_with igw_prefix (igw_section v) = igw_section v.
Proof.
  apply filter_all, forallb_forall. intros line Hin.
  unfold igw_section in Hin. destruct Hin as [<-|Hin]; [reflexivity|].
  apply in_map_iff in Hin as (s & <- & _). reflexivity.
Qed.

(** * The claims *)

(** C1. Running [_process_subnet] on a subnet [s] of a VPC [v] appends the
    block of [s]: its header, the route-table section, the security-group
    section and its footer.  The route-table section holds, for each route
    table of [route_tables_for s v] in turn, the node [rt_<sanitize(id)>]
    and the edge from it into the block of [s]; and a route table of [v] is
    in [route_tables_for s v] if and only if the id of [s] is a member of
    its [subnet_associations], the order being that of [v.route_tables]. *)
Theorem route_tables_under_subnet (s : subnet) (v : vpc) (self : generator) :
  subnet_ok v s = true ->
  _process_subnet s v self
  = (Ok tt, extend_by self
              (subnet_header s :: rt_section v s ++ sg_section v s ++ [subnet_footer]))
  /\ rt_section v s
     = flat_map (fun rt => [rt_node rt; rt_edge rt (subnet_block_id s)])
                (route_tables_for s v)
  /\ route_tables_for s v
     = filter (fun rt => Py.contains (text (subnet_id s))
                                     (get (rt_subnet_associations rt) []))
              (elements (vpc_route_tables v))
  /\ (forall rt,
         In rt (route_tables_for s v)
         <-> In rt (elements (vpc_route_tables v))
             /\ In (text (subnet_id s)) (get (rt_subnet_associations rt) [])).
Proof.
  intros Hok. repeat split.
  - pose proof (_process_subnet_behaves s v self) as H. now rewrite Hok in H.
  - unfold route_tables_for in H. now apply filter_In in H.
  - unfold route_tables_for in H. apply filter_In in H as [_ H].
    now apply contains_In.
  - intros [Hin Hassoc]. unfold route_tables_for. apply filter_In.
    split; [exact Hin|]. now apply contains_In.
Qed.

Lemma route_tables_under_subnet_witness :
  subnet_ok Example.vpc_1 Example.subnet_1 = true
  /\ route_tables_for Example.subnet_1 Example.vpc_1 = [Example.rtb_1].
Proof.
  split; [reflexivity|].
  destruct (route_tables_under_subnet Example.subnet_1 Example.vpc_1
              (init Example.model) eq_refl) as (_ & _ & E & _).
  rewrite E. reflexivity.
Defined.

(** C2. When every subnet of a VPC carries [az], the grouping loop returns
    a dictionary whose keys are the [az] values in the order of their
    first occurrence, whose group for a key is the subnets of that zone in
    input order, and whose groups together are a rearrangement of the
    subnets (none lost, none repeated); it has as many entries as there are
    distinct [az] values, and [_process_vpc] opens one AZ block per entry,
    in that order. *)
Theorem grouping_by_az (v : vpc) (subnets : list subnet) (self : generator) :
  vpc_subnets v = Some subnets ->
  forallb (fun s => present (subnet_az s)) subnets = true ->
  exists az_subnets,
    group_by_az subnets [] self = (Ok az_subnets, self)
    /\ Dict.keys az_subnets = first_occurrences (map az_of subnets)
    /\ (forall az group,
           In (az, group) (Dict.items az_subnets) ->
           group = filter (fun s => String.eqb (az_of s) az) subnets)
    /\ Permutation (flat_map snd (Dict.items az_subnets)) subnets
    /\ List.length (flat_map snd (Dict.items az_subnets)) = List.length subnets
    /\ List.length (Dict.items az_subnets)
       = List.length (nodup string_dec (map az_of subnets))
    /\ (vpc_ok v = true ->
        _process_vpc v self
        = (Ok tt, extend_by self
                    (vpc_header v :: flat_map (az_block v) (Dict.items az_subnets)
                       ++ vpc_footer :: igw_section v))).
Proof.
  intros Hsub Haz. exists (groups subnets).
  pose proof (group_by_az_behaves subnets [] self) as Hrun.
  rewrite Haz, extend_by_nil in Hrun.
  unfold Dict.items. split; [exact Hrun|].
  split; [rewrite groups_groupByAZ; apply groupByAZ_keys|].
  split.
  { intros az group Hin. rewrite groups_groupByAZ in Hin.
    unfold groupByAZ, tabulate in Hin.
    apply in_map_iff in Hin as (k & E & _). now inversion E. }
  split; [rewrite groups_groupByAZ; apply groupByAZ_permutation|].
  split.
  { rewrite groups_groupByAZ. apply Permutation_length, groupByAZ_permutation. }
  split.
  { rewrite groups_groupByAZ. unfold groupByAZ, tabulate. rewrite length_map.
    apply first_occurrences_length. }
  intros Hok. pose proof (_process_vpc_behaves v self) as H.
  rewrite Hok in H. rewrite H. unfold vpc_lines, vpc_block, elements.
  rewrite Hsub. cbn [get]. rewrite <- app_comm_cons, <- app_assoc. reflexivity.
Qed.

Lemma grouping_by_az_witness :
  exists az_subnets,
    group_by_az [Example.subnet_1; Absent.subnet_bare; Example.subnet_1] []
                (init Example.model)
    = (Ok az_subnets, init Example.model)
    /\ Dict.keys az_subnets = ["us-east-1a"; "us-east-1b"].
Proof.
  destruct (grouping_by_az
              {| vpc_id := None; vpc_name := None; vpc_cidr := None;
                 vpc_subnets := Some [Example.subnet_1; Absent.subnet_bare;
                                      Example.subnet_1];
                 vpc_route_tables := None; vpc_security_groups := None |}
              [Example.subnet_1; Absent.subnet_bare; Example.subnet_1]
              (init Example.model) eq_refl eq_refl)
    as (az_subnets & Hrun & Hkeys & _).
  exists az_subnets. split; [exact Hrun|]. rewrite Hkeys. reflexivity.
Defined.

(** The public flag as [_process_vpc] tests it. *)
Lemma truthy_public (s : subnet) :
  truthy (subnet_public s)
  = match subnet_public s with
    | Some true => true
    | _ => false
    end.
Proof. now destruct (subnet_public s) as [[|]|]. Qed.

Lemma append_inj (p a b : string) : p ++ a = p ++ b -> a = b.
Proof.
  induction p as [|c p IH]; cbn [append]; intros H; [exact H|].
  apply IH. now inversion H.
Qed.

Lemma igw_edge_not_node (v : vpc) (s : subnet) : igw_edge v s <> igw_node v.
Proof.
  unfold igw_edge, igw_node. intros H.
  apply append_inj, append_inj in H. discriminate H.
Qed.

Lemma igw_edge_inj (v : vpc) (s s' : subnet) :
  igw_edge v s' = igw_edge v s -> subnet_block_id s' = subnet_block_id s.
Proof.
  unfold igw_edge. intros H. now apply append_inj, append_inj, append_inj in H.
Qed.

Lemma igw_edge_not_in_vpc_block (v : vpc) (s : subnet) : ~ In (igw_edge v s) (vpc_block v).
Proof.
  intros Hin.
  assert (H : In (igw_edge v s) (starting_with igw_prefix (vpc_block v))).
  { apply filter_In. split; [exact Hin|reflexivity]. }
  now rewrite igw_lines_of_vpc_block in H.
Qed.

(** C3. Running [_process_vpc] on a VPC [v] appends the containment block
    of [v], which ends with its closing line, and after it the node
    [igw_<sanitize(v.id)>] followed by one edge from that node to
    [subnet_<sanitize(s.id)>] for each subnet [s] of [v.subnets] whose
    [public] is [True], in the order of [v.subnets]; a subnet whose
    [public] is [False] or absent contributes none.  These are all the
    Internet-Gateway lines: none occurs inside the containment block, and
    the edge to the block of a subnet is among the appended lines exactly
    when a subnet of [v] with [public] [True] has that block identifier. *)
Theorem gateway_edges (v : vpc) (self : generator) :
  vpc_ok v = true ->
  exists flagged appended,
    flagged = filter (fun s => match subnet_public s with
                               | Some true => true
                               | _ => false
                               end)
                     (elements (vpc_subnets v))
    /\ appended = (vpc_block v ++ igw_node v :: map (igw_edge v) flagged)%list
    /\ _process_vpc v self = (Ok tt, extend_by self appended)
    /\ (exists body, vpc_block v = (vpc_header v :: body ++ [vpc_footer])%list)
    /\ starting_with igw_prefix (vpc_block v) = []
    /\ starting_with igw_prefix appended
       = (igw_node v :: map (igw_edge v) flagged)%list
    /\ (forall s, igw_edge v s
                  = "    igw_" ++ sanitize (text (vpc_id v)) ++ " --> subnet_"
                      ++ sanitize (text (subnet_id s)))
    /\ (forall s, In s flagged
                  <-> In s (elements (vpc_subnets v)) /\ subnet_public s = Some true)
    /\ (forall s, In s (elements (vpc_subnets v)) ->
                  subnet_public s = Some false \/ subnet_public s = None ->
                  ~ In s flagged)
    /\ (forall s, In (igw_edge v s) appended
                  <-> exists s', In s' (elements (vpc_subnets v))
                                 /\ subnet_public s' = Some true
                                 /\ sanitize (text (subnet_id s'))
                                    = sanitize (text (subnet_id s))).
Proof.
  intros Hok.
  assert (Hflag : forall s,
             In s (filter (fun s => match subnet_public s with
                                    | Some true => true
                                    | _ => false
                                    end) (elements (vpc_subnets v)))
             <-> In s (elements (vpc_subnets v)) /\ subnet_public s = Some true).
  { intros s. rewrite filter_In.
    destruct (subnet_public s) as [[|]|]; split; intros [H1 H2];
      (split; [exact H1|]); (reflexivity || discriminate H2). }
  assert (Hsection : igw_section v
                     = (igw_node v
                          :: map (igw_edge v)
                               (filter (fun s => match subnet_public s with
                                                 | Some true => true
                                                 | _ => false
                                                 end) (elements (vpc_subnets v))))%list).
  { unfold igw_section. f_equal. f_equal. apply filter_ext.
    intros s. apply truthy_public. }
  eexists. eexists. split; [reflexivity|]. split; [reflexivity|].
  rewrite <- Hsection. fold (vpc_lines v).
  split.
  { pose proof (_process_vpc_behaves v self) as H. now rewrite Hok in H. }
  split.
  { now exists (flat_map (az_block v) (groups (elements (vpc_subnets v)))). }
  split; [apply igw_lines_of_vpc_block|].
  split.
  { unfold vpc_lines. rewrite starting_with_app, igw_lines_of_vpc_block.
    apply igw_lines_of_igw_section. }
  split; [reflexivity|].
  split; [exact Hflag|].
  split.
  { intros s _ Hnot Hin. apply Hflag in Hin as [_ Hin].
    destruct Hnot as [H|H]; rewrite H in Hin; discriminate Hin. }
  intros s. unfold vpc_lines. rewrite Hsection, in_app_iff. split.
  - intros [Hin|[Hin|Hin]].
    + now apply igw_edge_not_in_vpc_block in Hin.
    + symmetry in Hin. now apply igw_edge_not_node in Hin.
    + apply in_map_iff in Hin as (s' & Heq & Hin).
      apply Hflag in Hin as [Hin Hpub].
      exists s'. split; [exact Hin|]. split; [exact Hpub|].
      now apply igw_edge_inj in Heq.
  - intros (s' & Hin & Hpub & Heq). right. right.
    apply in_map_iff. exists s'. split.
    + unfold igw_edge, subnet_block_id. now rewrite Heq.
    + apply Hflag. now split.
Qed.

Lemma gateway_edges_witness :
  vpc_ok Samples.vpc_mixed_flags = true
  /\ exists appended,
      _process_vpc Samples.vpc_mixed_flags (init Example.model)
      = (Ok tt, extend_by (init Example.model) appended)
      /\ starting_with igw_prefix appended
         = ["    igw_vpc_1[" ++ Py.dq ++ "Internet Gateway" ++ Py.dq ++ "]";
            "    igw_vpc_1 --> subnet_subnet_1";
            "    igw_vpc_1 --> subnet_subnet_4"]
      /\ ~ In "    igw_vpc_1 --> subnet_subnet_9" appended
      /\ ~ In "    igw_vpc_1 --> subnet_subnet_2" appended.
Proof.
  split; [reflexivity|].
  destruct (gateway_edges Samples.vpc_mixed_flags (init Example.model) eq_refl)
    as (flagged & appended & Hflagged & Happended & Hrun & _ & _ & Hlines & _ & _ & _
        & Hedge).
  exists appended. split; [exact Hrun|].
  split; [rewrite Hlines, Hflagged; reflexivity|].
  split.
  - intros Hin.
    apply (Hedge {| subnet_id := Some "subnet-9"; subnet_name := None;
                    subnet_cidr := None; subnet_az := None;
                    subnet_public := None |}) in Hin.
    destruct Hin as (s' & [<-|[<-|[<-|[<-|[]]]]] & Hpub & Hid);
      (discriminate Hpub || (vm_compute in Hid; discriminate Hid)).
  - intros Hin.
    apply (Hedge {| subnet_id := Some "subnet-2"; subnet_name := None;
                    subnet_cidr := None; subnet_az := None;
                    subnet_public := None |}) in Hin.
    destruct Hin as (s' & [<-|[<-|[<-|[<-|[]]]]] & Hpub & Hid);
      (discriminate Hpub || (vm_compute in Hid; discriminate Hid)).
Defined.

(** C4. Inside the block of every subnet [s] of a VPC [v] the
    security-group section holds, for every security group of
    [v.security_groups] in turn and whatever its associations, the node
    [sg_<sanitize(id)>] and the edge from it into the block of [s].  The
    lines of [v] that belong to security groups are therefore two, a node
    and an edge, for each pair of a subnet and a security group of [v]. *)
Theorem security_groups_under_subnet (v : vpc) (self : generator) :
  vpc_ok v = true ->
  (forall s,
      In s (elements (vpc_subnets v)) ->
      forall self',
        _process_subnet s v self'
        = (Ok tt, extend_by self'
                    (subnet_header s :: rt_section v s ++ sg_section v s
                       ++ [subnet_footer]))
        /\ sg_section v s
           = flat_map (fun sg => [sg_node sg; sg_edge sg (subnet_block_id s)])
                      (elements (vpc_security_groups v)))
  /\ _process_vpc v self = (Ok tt, extend_by self (vpc_lines v))
  /\ List.length (starting_with sg_prefix (vpc_lines v))
     = 2 * (List.length (elements (vpc_subnets v))
            * List.length (elements (vpc_security_groups v))).
Proof.
  intros Hok. split; [|split].
  - intros s Hs self'. split; [|reflexivity].
    pose proof (_process_subnet_behaves s v self') as H.
    assert (Hs_ok : subnet_ok v s = true).
    { unfold vpc_ok in Hok. repeat (apply andb_prop in Hok as [_ Hok]).
      rewrite forallb_forall in Hok. now apply Hok. }
    now rewrite Hs_ok in H.
  - pose proof (_process_vpc_behaves v self) as H. now rewrite Hok in H.
  - rewrite sg_lines_of_vpc_lines, groups_groupByAZ.
    rewrite (Permutation_length
               (Permutation_flat_map (sg_section v)
                  (groupByAZ_permutation (elements (vpc_subnets v))))).
    rewrite (flat_map_length_const _ (2 * List.length (elements (vpc_security_groups v)))).
    + lia.
    + intros s. unfold sg_section, security_groups_for.
      rewrite (flat_map_length_const _ 2) by reflexivity. lia.
Qed.

Lemma security_groups_under_subnet_witness :
  vpc_ok Example.vpc_1 = true
  /\ List.length (starting_with sg_prefix (vpc_lines Example.vpc_1)) = 2.
Proof.
  split; [reflexivity|].
  destruct (security_groups_under_subnet Example.vpc_1 (init Example.model) eq_refl)
    as (_ & _ & E).
  rewrite E. reflexivity.
Defined.

(** C5, as stated, fails: the generator reads [destination], [target] and
    [port_range] by subscript.  A model whose associated route table has a
    route without [destination] makes [generate_diagram] raise
    [KeyError('destination')], and a rule without [port_range] makes it
    raise [KeyError('port_range')]. *)
Lemma absent_route_field_raises :
  fst (generate_diagram (init Absent.model_no_destination))
  = Raise (KeyError "destination")
  /\ fst (generate_diagram (init Absent.model_no_port_range))
     = Raise (KeyError "port_range").
Proof. split; reflexivity. Qed.

Lemma raw_get_absent (key : string) (r : Mapper.raw_route) (default : string) :
  ~ In key (map fst r) -> Mapper.raw_get key r default = default.
Proof.
  induction r as [|[k v] rest IH]; [reflexivity|].
  cbn [map fst In Mapper.raw_get]. intros H.
  destruct (String.eqb_spec k key) as [->|Hk].
  - exfalso. apply H. now left.
  - apply IH. intros Hin. apply H. now right.
Qed.

Lemma next_id_value_absent (r : Mapper.raw_route) (default : string) :
  (forall k, In k (map fst r) -> Py.endswith k "Id" = false) ->
  Mapper.next_id_value r default = default.
Proof.
  induction r as [|[k v] rest IH]; [reflexivity|].
  cbn [map fst In Mapper.next_id_value]. intros H.
  rewrite (H k) by now left.
  apply IH. intros k' Hin. apply H. now right.
Qed.

(** C5, amended.  The placeholders are substituted by the collector when it
    builds the model: a route without [DestinationCidrBlock] gets the
    destination ["Unknown"], a route none of whose keys ends in [Id] gets
    the target ["Unknown"], and an absent [FromPort] or [ToPort] is
    rendered as ["All"] in [port_range].  Every route and rule the
    collector builds therefore carries [destination], [target],
    [protocol], [port_range] and [sources], and the generator renders a
    route table made of such routes without raising. *)
Theorem collector_placeholders (r : Mapper.raw_route) (rule : Mapper.raw_permission) :
  route_ok (Mapper.route_data r) = true
  /\ (~ In "DestinationCidrBlock" (map fst r) ->
      route_destination (Mapper.route_data r) = Some "Unknown")
  /\ ((forall k, In k (map fst r) -> Py.endswith k "Id" = false) ->
      route_target (Mapper.route_data r) = Some "Unknown")
  /\ (forall built,
         Mapper.rule_data rule = Ok built ->
         rule_ok built = true
         /\ rule_port_range built
            = Some (Mapper.port_text (Mapper.FromPort rule) ++ "-"
                      ++ Mapper.port_text (Mapper.ToPort rule)))
  /\ Mapper.port_text None = "All"
  /\ (forall id name associations routes subnet_id self,
         let rt := {| rt_id := Some id; rt_name := name;
                      rt_routes := Some (map Mapper.route_data routes);
                      rt_subnet_associations := associations |} in
         _add_route_table rt subnet_id self
         = (Ok tt, extend_by self (rt_lines subnet_id rt))).
Proof.
  split; [reflexivity|].
  split.
  { intros H. cbn. now rewrite raw_get_absent. }
  split.
  { intros H. cbn. now rewrite next_id_value_absent. }
  split.
  { intros built H. unfold Mapper.rule_data in H.
    destruct (Mapper.cidr_ips _); inversion H. split; reflexivity. }
  split; [reflexivity|].
  intros id name associations routes subnet_id self rt.
  pose proof (_add_route_table_behaves rt subnet_id self) as H.
  assert (Hok : rt_ok rt = true).
  { unfold rt_ok, rt. cbn. apply forallb_forall. intros x Hx.
    apply in_map_iff in Hx as (raw & <- & _). reflexivity. }
  now rewrite Hok in H.
Qed.

Lemma collector_placeholders_witness :
  Mapper.route_data [("GatewayName", "x")]
  = {| route_destination := Some "Unknown"; route_target := Some "Unknown" |}
  /\ option_map rule_port_range
       (match Mapper.rule_data
                {| Mapper.FromPort := None; Mapper.ToPort := Some 443%Z;
                   Mapper.IpProtocol := None; Mapper.IpRanges := None |}
        with Ok built => Some built | Raise _ => None end)
     = Some (Some "All-443").
Proof.
  destruct (collector_placeholders
              [("GatewayName", "x")]
              {| Mapper.FromPort := None; Mapper.ToPort := Some 443%Z;
                 Mapper.IpProtocol := None; Mapper.IpRanges := None |})
    as (_ & Hd & Ht & Hrule & _).
  split.
  - assert (D : route_destination (Mapper.route_data [("GatewayName", "x")])
                = Some "Unknown").
    { apply Hd. cbn. intros [H|[]]. discriminate H. }
    assert (T : route_target (Mapper.route_data [("GatewayName", "x")])
                = Some "Unknown").
    { apply Ht. cbn. intros k [<-|[]]. reflexivity. }
    reflexivity.
  - destruct (Hrule _ eq_refl) as [_ E]. reflexivity.
Defined.

(** C6, as stated, fails: a subnet without [public] and [name], next to a
    route table without [name], [routes] and [subnet_associations], in a
    model without [timestamp] and [region], is emitted normally. *)
Lemma absent_optional_keys_return :
  subnet_public Absent.subnet_bare = None
  /\ rt_subnet_associations Absent.rtb_bare = None
  /\ rt_routes Absent.rtb_bare = None
  /\ fst (generate_diagram (init Absent.model_bare))
     = Ok (Py.join (Py.nl ++ "    ") (diagram_lines Absent.model_bare)).
Proof. repeat split; reflexivity. Qed.

(** C6, amended.  Emission returns exactly when every key the traversal
    reaches by subscript is present ([required_present]): [vpcs]; [id],
    [name], [cidr] and [subnets] of a VPC; [az], [id] and [cidr] of a
    subnet; [route_tables] and [security_groups] of a VPC that has a
    subnet; [id] and [routes] of a route table associated with a subnet,
    and [destination] and [target] of its routes; [id], [rules_ingress]
    and [name] of a security group, and [protocol], [port_range] and
    [sources] of its rules.  Otherwise it raises [KeyError] on one of
    these keys, which aborts emission and reaches the caller.  An absent
    [public] or [subnet_associations] is not an error. *)
Theorem emission_fails_on_absent_subscripted_key (self : generator) :
  if required_present (data self)
  then generate_diagram self
       = (Ok (Py.join (Py.nl ++ "    ") (diagram_lines (data self))),
          {| data := data self; diagram := diagram_lines (data self) |})
  else exists key lines,
      generate_diagram self
      = (Raise (KeyError key), {| data := data self; diagram := lines |})
      /\ In key subscripted_keys.
Proof.
  pose proof (generate_diagram_run self) as H.
  destruct (required_present (data self)); [exact H|].
  destruct H as (key & lines & Hrun & Hkey).
  exists key, lines. split; [exact Hrun|]. now apply contains_In.
Qed.

(** ** Repeated invocations *)

Lemma generate_diagram_ignores_buffer (m : network_data) (buffer1 buffer2 : list string) :
  generate_diagram {| data := m; diagram := buffer1 |}
  = generate_diagram {| data := m; diagram := buffer2 |}.
Proof. reflexivity. Qed.

Lemma generate_diagram_data (self : generator) :
  data (snd (generate_diagram self)) = data self.
Proof.
  pose proof (generate_diagram_run self) as H.
  destruct (required_present (data self)).
  - now rewrite H.
  - destruct H as (key & lines & -> & _). reflexivity.
Qed.

(** C8. The outcome of [generate_diagram] is a function of the model alone:
    whatever the line buffer holds when it is called, the returned text and
    the final buffer are the same, and a second invocation on the same
    generator repeats the outcome of the first. *)
Theorem generate_diagram_deterministic (m : network_data) (buffer1 buffer2 : list string) :
  generate_diagram {| data := m; diagram := buffer1 |}
  = generate_diagram {| data := m; diagram := buffer2 |}
  /\ (let first := generate_diagram {| data := m; diagram := buffer1 |} in
      generate_diagram (snd first) = first)
  /\ (required_present m = true ->
      fst (generate_diagram {| data := m; diagram := buffer1 |})
      = Ok (Py.join (Py.nl ++ "    ") (diagram_lines m))).
Proof.
  split; [reflexivity|]. split.
  - cbv zeta.
    pose proof (generate_diagram_data {| data := m; diagram := buffer1 |}) as Hd.
    destruct (snd (generate_diagram {| data := m; diagram := buffer1 |}))
      as [m' buffer'].
    cbn [data] in Hd. subst m'. apply generate_diagram_ignores_buffer.
  - intros Hok.
    pose proof (generate_diagram_run {| data := m; diagram := buffer1 |}) as H.
    cbn [data] in H. rewrite Hok in H. now rewrite H.
Qed.

Lemma generate_diagram_deterministic_witness :
  fst (generate_diagram {| data := Example.model; diagram := ["stale"] |})
  = Ok (Py.join (Py.nl ++ "    ") (diagram_lines Example.model)).
Proof.
  destruct (generate_diagram_deterministic Example.model ["stale"] []) as (_ & _ & H).
  apply H. reflexivity.
Defined.

(** C9. No method writes to the model: after [generate_diagram], and after
    [_process_vpc], [_process_az] and [_process_subnet], whether they
    return or raise, [self.data] is what it was. *)
Theorem model_not_mutated (self : generator) :
  data (snd (generate_diagram self)) = data self
  /\ (forall v, data (snd (_process_vpc v self)) = data self)
  /\ (forall az subnets v, data (snd (_process_az az subnets v self)) = data self)
  /\ (forall s v, data (snd (_process_subnet s v self)) = data self)
  /\ (forall rt subnet_id, data (snd (_add_route_table rt subnet_id self)) = data self)
  /\ (forall sg subnet_id,
         data (snd (_add_security_group sg subnet_id self)) = data self).
Proof.
  split; [apply generate_diagram_data|].
  split; [intros v; eapply behaves_data, _process_vpc_behaves|].
  split; [intros az subnets v; eapply behaves_data, _process_az_behaves|].
  split; [intros s v; eapply behaves_data, _process_subnet_behaves|].
  split; [intros rt sid; eapply behaves_data, _add_route_table_behaves|].
  intros sg sid; eapply behaves_data, _add_security_group_behaves.
Qed.

(** ** Availability zones across VPCs *)

Lemma az_header_in_vpc_block (v : vpc) (s : subnet) :
  In s (elements (vpc_subnets v)) -> In (az_header (az_of s)) (vpc_block v).
Proof.
  intros Hs. unfold vpc_block. right. apply in_or_app. left.
  apply in_flat_map.
  assert (Hk : In (az_of s) (Dict.keys (groups (elements (vpc_subnets v))))).
  { rewrite groups_groupByAZ, groupByAZ_keys.
    apply first_occurrences_In. now apply in_map. }
  unfold Dict.keys in Hk. apply in_map_iff in Hk as (item & E & Hitem).
  exists item. split; [exact Hitem|]. unfold az_block. left. now rewrite E.
Qed.

Lemma count_occ_In_le (lines : list string) (line : string) :
  In line lines -> 1 <= count_occ string_dec lines line.
Proof. intros H. apply (count_occ_In string_dec) in H. lia. Qed.

(** C10. [_process_az] opens its block with the identifier [sanitize(az)],
    which does not depend on the VPC.  So when two VPCs of a model, at
    different places of [vpcs], each have a subnet in the same availability
    zone, the emitted diagram has the same opening line
    [subgraph <sanitize(az)>["<az>"]] at least twice, once in the block of
    each VPC. *)
Theorem az_identifier_shared_across_vpcs
        (m : network_data) (before : list vpc) (v1 : vpc) (between : list vpc)
        (v2 : vpc) (after : list vpc) (s1 s2 : subnet) (az : string) :
  nd_vpcs m = Some (before ++ v1 :: between ++ v2 :: after)%list ->
  required_present m = true ->
  In s1 (elements (vpc_subnets v1)) -> subnet_az s1 = Some az ->
  In s2 (elements (vpc_subnets v2)) -> subnet_az s2 = Some az ->
  let opening := "        subgraph " ++ Py.replace az "-" "_" ++ "[" ++ Py.dq ++ az
                   ++ Py.dq ++ "]" in
  (forall subnets v self,
      forallb (subnet_ok v) subnets = true ->
      _process_az az subnets v self
      = (Ok tt, extend_by self
                  (opening :: flat_map (subnet_block v) subnets ++ [az_footer])))
  /\ In opening (vpc_block v1)
  /\ In opening (vpc_block v2)
  /\ exists lines,
      generate_diagram (init m)
      = (Ok (Py.join (Py.nl ++ "    ") lines), {| data := m; diagram := lines |})
      /\ 2 <= count_occ string_dec lines opening.
Proof.
  intros Hvpcs Hok Hs1 Haz1 Hs2 Haz2 opening.
  assert (H1 : In opening (vpc_block v1)).
  { replace opening with (az_header (az_of s1)).
    - now apply az_header_in_vpc_block.
    - unfold az_of, text. now rewrite Haz1. }
  assert (H2 : In opening (vpc_block v2)).
  { replace opening with (az_header (az_of s2)).
    - now apply az_header_in_vpc_block.
    - unfold az_of, text. now rewrite Haz2. }
  split.
  { intros subnets v self Hsub.
    pose proof (_process_az_behaves az subnets v self) as H.
    now rewrite Hsub in H. }
  split; [exact H1|]. split; [exact H2|].
  exists (diagram_lines m). split.
  - pose proof (generate_diagram_run (init m)) as H. cbn [init data] in H.
    now rewrite Hok in H.
  - unfold diagram_lines, elements. rewrite Hvpcs. cbn [get].
    rewrite flat_map_app. cbn [flat_map]. rewrite flat_map_app. cbn [flat_map].
    cbn [count_occ]. destruct (string_dec "graph TB" opening) as [E|_];
      [discriminate E|].
    rewrite !count_occ_app. cbn [count_occ].
    assert (C1 : 1 <= count_occ string_dec (vpc_lines v1) opening)
      by (apply count_occ_In_le, in_or_app; now left).
    assert (C2 : 1 <= count_occ string_dec (vpc_lines v2) opening)
      by (apply count_occ_In_le, in_or_app; now left).
    lia.
Qed.

Lemma az_identifier_shared_across_vpcs_witness :
  2 <= count_occ string_dec (diagram_lines Absent.model_two_vpcs)
         ("        subgraph us_east_1a[" ++ Py.dq ++ "us-east-1a" ++ Py.dq ++ "]").
Proof.
  destruct (az_identifier_shared_across_vpcs
              Absent.model_two_vpcs [] Example.vpc_1 [] Absent.vpc_2 []
              Example.subnet_1
              {| subnet_id := Some "subnet-9"; subnet_name := Some "Unnamed";
                 subnet_cidr := Some "10.1.1.0/24"; subnet_az := Some "us-east-1a";
                 subnet_public := Some false |}
              "us-east-1a" eq_refl eq_refl (or_introl eq_refl) eq_refl
              (or_introl eq_refl) eq_refl)
    as (_ & _ & _ & lines & Hrun & Hcount).
  assert (E : lines = diagram_lines Absent.model_two_vpcs).
  { assert (Hd : diagram (snd (generate_diagram (init Absent.model_two_vpcs)))
                 = lines) by now rewrite Hrun.
    rewrite <- Hd. reflexivity. }
  rewrite <- E. exact Hcount.
Defined.

(** C7. [sanitize(x)] has the length of [x]; at every position it has an
    underscore where [x] has a hyphen and the character of [x] otherwise.
    It contains no hyphen, and sanitizing twice is sanitizing once. *)
Theorem sanitize_hyphens (x : string) :
  String.length (sanitize x) = String.length x
  /\ (forall n,
         String.get n (sanitize x)
         = option_map (fun c => if Ascii.eqb c "-" then "_"%char else c)
                      (String.get n x))
  /\ Py.has_char "-" (sanitize x) = false
  /\ sanitize (sanitize x) = sanitize x.
Proof.
  rewrite !sanitize_chars. repeat split.
  - apply hyphens_to_underscores_length.
  - intros n. apply hyphens_to_underscores_get.
  - apply hyphens_to_underscores_clean.
  - apply hyphens_to_underscores_fixed, hyphens_to_underscores_clean.
Qed.

(** * Further properties of the generator *)

(** ** Nesting *)

Import Layout.

Lemma nest_app (l1 l2 : list string) (opened : list nat) :
  nest (l1 ++ l2) opened
  = match nest l1 opened with
    | Some opened' => nest l2 opened'
    | None => None
    end.
Proof.
  revert opened. induction l1 as [|line rest IH]; intros opened; [reflexivity|].
  cbn [app nest]. destruct (classify line) as [d|d|d|].
  - destruct (Nat.eqb d (S (List.length opened))); [apply IH|reflexivity].
  - destruct opened as [|d' outer]; [reflexivity|].
    destruct (Nat.eqb d d'); [apply IH|reflexivity].
  - destruct (Nat.eqb d (List.length opened)); [apply IH|reflexivity].
  - destruct opened; [apply IH|reflexivity].
Qed.

Lemma nest_flat_map {A} (f : A -> list string) (xs : list A) (opened : list nat) :
  (forall x, nest (f x) opened = Some opened) ->
  nest (flat_map f xs) opened = Some opened.
Proof.
  intros H. induction xs as [|x rest IH]; [reflexivity|].
  cbn [flat_map]. now rewrite nest_app, H.
Qed.

Lemma nest_seq (l1 l2 : list string) (opened between : list nat)
      (r : option (list nat)) :
  nest l1 opened = Some between -> nest l2 between = r ->
  nest (l1 ++ l2) opened = r.
Proof. intros H1 H2. now rewrite nest_app, H1. Qed.

Lemma nest_subnet_block (v : vpc) (s : subnet) :
  nest (subnet_block v s) [2; 1] = Some [2; 1].
Proof.
  unfold subnet_block, rt_section, sg_section.
  change (subnet_header s :: ?l) with ([subnet_header s] ++ l)%list.
  apply (nest_seq _ _ _ [3; 2; 1]); [reflexivity|].
  apply (nest_seq _ _ _ [3; 2; 1]); [apply nest_flat_map; reflexivity|].
  apply (nest_seq _ _ _ [3; 2; 1]); [apply nest_flat_map; reflexivity|].
  reflexivity.
Qed.

Lemma nest_az_block (v : vpc) (item : string * list subnet) :
  nest (az_block v item) [1] = Some [1].
Proof.
  unfold az_block.
  change (az_header (fst item) :: ?l) with ([az_header (fst item)] ++ l)%list.
  apply (nest_seq _ _ _ [2; 1]); [reflexivity|].
  apply (nest_seq _ _ _ [2; 1]); [apply nest_flat_map, nest_subnet_block|].
  reflexivity.
Qed.

Lemma nest_vpc_lines (v : vpc) : nest (vpc_lines v) [] = Some [].
Proof.
  unfold vpc_lines, vpc_block, igw_section.
  change (vpc_header v :: ?l) with ([vpc_header v] ++ l)%list.
  rewrite <- app_assoc.
  apply (nest_seq _ _ _ [1]); [reflexivity|].
  rewrite <- app_assoc.
  apply (nest_seq _ _ _ [1]); [apply nest_flat_map, nest_az_block|].
  apply (nest_seq _ _ _ []); [reflexivity|].
  change (igw_node v :: ?l) with ([igw_node v] ++ l)%list.
  apply (nest_seq _ _ _ []); [reflexivity|].
  rewrite <- (flat_map_unit (igw_edge v)).
  apply nest_flat_map. reflexivity.
Qed.

Lemma nest_diagram_lines (m : network_data) : nest (diagram_lines m) [] = Some [].
Proof.
  unfold diagram_lines.
  change ("graph TB" :: ?l) with (["graph TB"] ++ l)%list.
  apply (nest_seq _ _ _ []); [reflexivity|].
  apply (nest_seq _ _ _ []); [apply nest_flat_map, nest_vpc_lines|].
  reflexivity.
Qed.

(** X1. The diagram a returning run leaves in the buffer is well nested:
    read from the top, every [subgraph] line of a VPC opens at the top
    level, every one of an availability zone inside a VPC block, every one
    of a subnet inside an availability-zone block; every [end] closes the
    innermost open block and has its indentation; every node and edge of a
    route table or security group stands inside a subnet block; every
    other line stands outside all blocks; and no block is left open. *)
Theorem diagram_well_nested (self : generator) :
  required_present (data self) = true ->
  fst (generate_diagram self)
  = Ok (Py.join (Py.nl ++ "    ") (diagram (snd (generate_diagram self))))
  /\ nest (diagram (snd (generate_diagram self))) [] = Some [].
Proof.
  intros Hok. pose proof (generate_diagram_run self) as H. rewrite Hok in H.
  rewrite H. cbn [fst snd diagram]. split; [reflexivity|apply nest_diagram_lines].
Qed.

Lemma diagram_well_nested_witness :
  nest (diagram (snd (generate_diagram (init Absent.model_two_vpcs)))) [] = Some [].
Proof.
  exact (proj2 (diagram_well_nested (init Absent.model_two_vpcs) eq_refl)).
Defined.

(** ** Blocks, counted on the text *)

Lemma subnet_openings_of_subnet_block (v : vpc) (s : subnet) :
  starting_with subnet_open_prefix (subnet_block v s) = [subnet_header s].
Proof.
  unfold subnet_block, rt_section, sg_section.
  change (subnet_header s :: ?l) with ([subnet_header s] ++ l)%list.
  rewrite !starting_with_app, !starting_with_flat_map.
  rewrite !flat_map_nil by reflexivity. reflexivity.
Qed.

Lemma subnet_openings_of_az_block (v : vpc) (item : string * list subnet) :
  starting_with subnet_open_prefix (az_block v item) = map subnet_header (snd item).
Proof.
  unfold az_block.
  change (az_header (fst item) :: ?l) with ([az_header (fst item)] ++ l)%list.
  rewrite !starting_with_app, starting_with_flat_map.
  rewrite (flat_map_id_on _ (fun s => [subnet_header s]))
    by apply subnet_openings_of_subnet_block.
  rewrite flat_map_unit.
  change (starting_with subnet_open_prefix [az_header (fst item)]) with (@nil string).
  change (starting_with subnet_open_prefix [az_footer]) with (@nil string).
  cbn [app]. apply app_nil_r.
Qed.

Lemma az_openings_of_az_block (v : vpc) (item : string * list subnet) :
  starting_with az_open_prefix (az_block v item) = [az_header (fst item)].
Proof.
  unfold az_block.
  change (az_header (fst item) :: ?l) with ([az_header (fst item)] ++ l)%list.
  rewrite !starting_with_app, starting_with_flat_map.
  rewrite flat_map_nil; [reflexivity|].
  intros s. unfold subnet_block, rt_section, sg_section.
  change (subnet_header s :: ?l) with ([subnet_header s] ++ l)%list.
  rewrite !starting_with_app, !starting_with_flat_map.
  rewrite !flat_map_nil by reflexivity. reflexivity.
Qed.

Lemma no_opening_in_igw_section (v : vpc) :
  starting_with subnet_open_prefix (igw_section v) = []
  /\ starting_with az_open_prefix (igw_section v) = [].
Proof.
  unfold igw_section.
  change (igw_node v :: ?l) with ([igw_node v] ++ l)%list.
  rewrite <- (flat_map_unit (igw_edge v)).
  rewrite !starting_with_app, !starting_with_flat_map.
  rewrite !flat_map_nil by reflexivity. split; reflexivity.
Qed.

(** X2. In the lines of a VPC on which [_process_vpc] returns, the lines
    that open a subnet block are the headers of its subnets, one for each
    subnet, and the lines that open an availability-zone block are one for
    each distinct [az] value, in the order of first occurrence. *)
Theorem blocks_counted_on_text (v : vpc) (self : generator) :
  vpc_ok v = true ->
  _process_vpc v self = (Ok tt, extend_by self (vpc_lines v))
  /\ Permutation (starting_with subnet_open_prefix (vpc_lines v))
                 (map subnet_header (elements (vpc_subnets v)))
  /\ List.length (starting_with subnet_open_prefix (vpc_lines v))
     = List.length (elements (vpc_subnets v))
  /\ starting_with az_open_prefix (vpc_lines v)
     = map az_header (first_occurrences (map az_of (elements (vpc_subnets v))))
  /\ List.length (starting_with az_open_prefix (vpc_lines v))
     = List.length (nodup string_dec (map az_of (elements (vpc_subnets v)))).
Proof.
  intros Hok.
  assert (Hsub : starting_with subnet_open_prefix (vpc_lines v)
                 = map subnet_header
                       (flat_map snd (groupByAZ (elements (vpc_subnets v))))).
  { unfold vpc_lines, vpc_block.
    change (vpc_header v :: ?l) with ([vpc_header v] ++ l)%list.
    rewrite !starting_with_app, starting_with_flat_map.
    rewrite (flat_map_id_on _ (fun item => map subnet_header (snd item)))
      by apply subnet_openings_of_az_block.
    rewrite (proj1 (no_opening_in_igw_section v)), groups_groupByAZ.
    change (starting_with subnet_open_prefix [vpc_header v]) with (@nil string).
    change (starting_with subnet_open_prefix [vpc_footer]) with (@nil string).
    cbn [app]. rewrite !app_nil_r.
    rewrite <- (flat_map_unit subnet_header), flat_map_flat_map.
    apply flat_map_ext. intros item. apply flat_map_unit. }
  assert (Haz : starting_with az_open_prefix (vpc_lines v)
                = map az_header
                      (first_occurrences (map az_of (elements (vpc_subnets v))))).
  { unfold vpc_lines, vpc_block.
    change (vpc_header v :: ?l) with ([vpc_header v] ++ l)%list.
    rewrite !starting_with_app, starting_with_flat_map.
    rewrite (flat_map_id_on _ (fun item => [az_header (fst item)]))
      by apply az_openings_of_az_block.
    rewrite (proj2 (no_opening_in_igw_section v)), groups_groupByAZ.
    change (starting_with az_open_prefix [vpc_header v]) with (@nil string).
    change (starting_with az_open_prefix [vpc_footer]) with (@nil string).
    cbn [app]. rewrite !app_nil_r, flat_map_unit.
    rewrite <- groupByAZ_keys. unfold Dict.keys. now rewrite map_map. }
  split.
  { pose proof (_process_vpc_behaves v self) as H. now rewrite Hok in H. }
  split.
  { rewrite Hsub. apply Permutation_map, groupByAZ_permutation. }
  split.
  { rewrite Hsub, length_map.
    apply Permutation_length, groupByAZ_permutation. }
  split; [exact Haz|].
  rewrite Haz, length_map. apply first_occurrences_length.
Qed.

Lemma blocks_counted_on_text_witness :
  List.length (starting_with subnet_open_prefix (vpc_lines Example.vpc_1)) = 1.
Proof.
  destruct (blocks_counted_on_text Example.vpc_1 (init Example.model) eq_refl)
    as (_ & _ & E & _).
  rewrite E. reflexivity.
Defined.

(** ** Gateway edges and the blocks they point at *)

Lemma subnet_header_in_vpc_block (v : vpc) (s : subnet) :
  In s (elements (vpc_subnets v)) -> In (subnet_header s) (vpc_block v).
Proof.
  intros Hs. unfold vpc_block. right. apply in_or_app. left.
  assert (Hg : In s (flat_map snd (groups (elements (vpc_subnets v))))).
  { rewrite groups_groupByAZ.
    apply (Permutation_in s (Permutation_sym (groupByAZ_permutation _))).
    exact Hs. }
  apply in_flat_map in Hg as (item & Hitem & Hin).
  apply in_flat_map. exists item. split; [exact Hitem|].
  unfold az_block. right. apply in_or_app. left.
  apply in_flat_map. exists s. split; [exact Hin|]. now left.
Qed.

(** X3. No gateway edge dangles: every line of the Internet-Gateway
    section after the node is the edge of a public subnet of the VPC, and
    the block that edge points at, [subnet_<sanitize(id)>], is opened
    inside the containment block of the same VPC. *)
Theorem gateway_edges_point_at_emitted_blocks (v : vpc) (self : generator) (line : string) :
  vpc_ok v = true ->
  In line (map (igw_edge v) (filter is_public (elements (vpc_subnets v)))) ->
  _process_vpc v self
  = (Ok tt, extend_by self (vpc_block v ++ igw_section v))
  /\ exists s,
      In s (elements (vpc_subnets v))
      /\ truthy (subnet_public s) = true
      /\ line = "    igw_" ++ sanitize (text (vpc_id v)) ++ " --> subnet_"
                  ++ subnet_block_id s
      /\ In ("            subgraph subnet_" ++ subnet_block_id s ++ "[" ++ Py.dq
               ++ "Public Subnet (" ++ text (subnet_cidr s) ++ ")" ++ Py.dq ++ "]")
            (vpc_block v).
Proof.
  intros Hok Hline. split.
  { pose proof (_process_vpc_behaves v self) as H. now rewrite Hok in H. }
  apply in_map_iff in Hline as (s & <- & Hs).
  apply filter_In in Hs as [Hs Hpub].
  exists s. split; [exact Hs|]. split; [exact Hpub|]. split; [reflexivity|].
  pose proof (subnet_header_in_vpc_block v s Hs) as H.
  unfold subnet_header in H. now rewrite Hpub in H.
Qed.

Lemma gateway_edges_point_at_emitted_blocks_witness :
  exists s,
    In s (elements (vpc_subnets Example.vpc_1))
    /\ In (subnet_header s) (vpc_block Example.vpc_1).
Proof.
  destruct (gateway_edges_point_at_emitted_blocks
              Example.vpc_1 (init Example.model)
              "    igw_vpc_1 --> subnet_subnet_1" eq_refl (or_introl eq_refl))
    as (_ & s & Hs & Hpub & _ & Hin).
  exists s. split; [exact Hs|].
  unfold subnet_header, is_public. rewrite Hpub. exact Hin.
Defined.

(** ** Absent keys: what is appended before the error *)

Lemma group_by_az_raises (subnets : list subnet) (az_subnets : Dict.t (list subnet))
      (self : generator) :
  forallb (fun s => present (subnet_az s)) subnets = false ->
  group_by_az subnets az_subnets self = (Raise (KeyError "az"), self).
Proof.
  revert az_subnets. induction subnets as [|s rest IH]; intros az_subnets H;
    [discriminate H|].
  cbn [forallb] in H. cbn [group_by_az]. unfold bind.
  destruct (subnet_az s) as [az|]; cbn [getitem ret raise]; [|reflexivity].
  cbn [present andb] in H. now apply IH.
Qed.

(** X4. The availability zones are grouped before any of them is emitted:
    when a subnet of a VPC has no [az], [_process_vpc] raises
    [KeyError('az')] having appended the opening line of the VPC and
    nothing else, however many subnets come before the one without [az]. *)
Theorem absent_az_raises_before_any_block
        (v : vpc) (id name cidr : string) (subnets : list subnet) (self : generator) :
  vpc_id v = Some id -> vpc_name v = Some name -> vpc_cidr v = Some cidr ->
  vpc_subnets v = Some subnets ->
  forallb (fun s => present (subnet_az s)) subnets = false ->
  _process_vpc v self
  = (Raise (KeyError "az"),
     extend_by self ["    subgraph " ++ Py.replace id "-" "_" ++ "[" ++ Py.dq ++ name
                       ++ " (" ++ cidr ++ ")" ++ Py.dq ++ "]"]).
Proof.
  intros Hid Hname Hcidr Hsub Haz.
  unfold _process_vpc. rewrite Hid, Hname, Hcidr, Hsub.
  cbv beta iota delta [bind getitem ret diagram_extend].
  now rewrite group_by_az_raises.
Qed.

Lemma absent_az_raises_before_any_block_witness :
  fst (_process_vpc Samples.vpc_missing_az (init Example.model))
  = Raise (KeyError "az").
Proof.
  rewrite (absent_az_raises_before_any_block
             Samples.vpc_missing_az "vpc-1" "main" "10.0.0.0/16" _ _
             eq_refl eq_refl eq_refl eq_refl eq_refl).
  reflexivity.
Defined.

Lemma comprehension_state {A B} (f : A -> M B) (xs : list A) :
  (forall x self, snd (f x self) = self) ->
  forall self, snd (comprehension f xs self) = self.
Proof.
  intros Hf. induction xs as [|x rest IH]; intros self; [reflexivity|].
  cbn [comprehension]. unfold bind.
  pose proof (Hf x self) as Hx. destruct (f x self) as [[y|e] self1].
  - cbn [snd] in Hx. subst self1.
    pose proof (IH self) as Hrest.
    destruct (comprehension f rest self) as [[ys|e] self2]; exact Hrest.
  - exact Hx.
Qed.

Lemma raise_keeps_buffer {A} (m : M A) (ok : bool) (a : A) (lines : list string)
      (self : generator) :
  behaves m ok a lines ->
  snd (m self) = self \/ fst (m self) = Ok a ->
  m self = (Ok a, extend_by self lines)
  \/ exists key, m self = (Raise (KeyError key), self).
Proof.
  intros Hb Hstate. specialize (Hb self). destruct ok; [now left|].
  destruct Hb as (key & lines' & Hrun & _). right. exists key.
  rewrite Hrun in Hstate |- *. cbn [fst snd] in Hstate.
  destruct Hstate as [E|H]; [now rewrite E|discriminate H].
Qed.

Lemma route_label_state (r : route) (self : generator) :
  snd ((destination <- getitem "destination" (route_destination r) ;;
        target <- getitem "target" (route_target r) ;;
        ret ("- " ++ destination ++ " → " ++ target)) self) = self.
Proof.
  unfold bind. destruct (route_destination r), (route_target r); reflexivity.
Qed.

Lemma rule_label_state (r : ingress_rule) (self : generator) :
  snd ((protocol <- getitem "protocol" (rule_protocol r) ;;
        port_range <- getitem "port_range" (rule_port_range r) ;;
        sources <- getitem "sources" (rule_sources r) ;;
        ret ("- " ++ Py.upper protocol ++ " " ++ port_range ++ " from "
               ++ Py.join ", " sources)) self) = self.
Proof.
  unfold bind.
  destruct (rule_protocol r), (rule_port_range r), (rule_sources r); reflexivity.
Qed.

(** X5. A route table or a security group is drawn whole or not at all:
    [_add_route_table] and [_add_security_group] either return having
    appended exactly the node line and the edge line, or raise [KeyError]
    leaving the buffer as it was.  No node is ever appended without its
    edge. *)
Theorem node_and_edge_or_nothing (subnet_id : string) (self : generator) :
  (forall rt,
      _add_route_table rt subnet_id self
      = (Ok tt, extend_by self [rt_node rt; rt_edge rt subnet_id])
      \/ exists key, _add_route_table rt subnet_id self = (Raise (KeyError key), self))
  /\ (forall sg,
         _add_security_group sg subnet_id self
         = (Ok tt, extend_by self [sg_node sg; sg_edge sg subnet_id])
         \/ exists key,
             _add_security_group sg subnet_id self = (Raise (KeyError key), self)).
Proof.
  split.
  - intros rt.
    apply (raise_keeps_buffer _ _ _ _ _ (_add_route_table_behaves rt subnet_id)).
    unfold _add_route_table, bind.
    destruct (rt_id rt) as [id|]; cbn [getitem ret raise]; [|now left].
    destruct (rt_routes rt) as [routes|]; cbn [getitem ret raise]; [|now left].
    match goal with
    | |- context [comprehension ?f routes self] =>
        pose proof (comprehension_state f routes route_label_state self) as Hc;
        destruct (comprehension f routes self) as [[labels|e] self1]
    end.
    + right. reflexivity.
    + left. exact Hc.
  - intros sg.
    apply (raise_keeps_buffer _ _ _ _ _ (_add_security_group_behaves sg subnet_id)).
    unfold _add_security_group, bind.
    destruct (sg_id sg) as [id|]; cbn [getitem ret raise]; [|now left].
    destruct (sg_rules_ingress sg) as [rules|]; cbn [getitem ret raise]; [|now left].
    match goal with
    | |- context [comprehension ?f rules self] =>
        pose proof (comprehension_state f rules rule_label_state self) as Hc;
        destruct (comprehension f rules self) as [[labels|e] self1]
    end.
    + cbn [snd] in Hc. subst self1.
      destruct (sg_name sg); cbn [getitem ret raise]; [now right|now left].
    + left. exact Hc.
Qed.

(** X6. A VPC without subnets is drawn as an empty block followed by its
    gateway node, and its [route_tables] and [security_groups] are never
    read: they may be absent. *)
Theorem vpc_without_subnets (v : vpc) (id name cidr : string) (self : generator) :
  vpc_id v = Some id -> vpc_name v = Some name -> vpc_cidr v = Some cidr ->
  vpc_subnets v = Some [] ->
  _process_vpc v self
  = (Ok tt,
     extend_by self
       ["    subgraph " ++ Py.replace id "-" "_" ++ "[" ++ Py.dq ++ name ++ " ("
          ++ cidr ++ ")" ++ Py.dq ++ "]";
        "    end";
        "    igw_" ++ Py.replace id "-" "_" ++ "[" ++ Py.dq ++ "Internet Gateway"
          ++ Py.dq ++ "]"]).
Proof.
  intros Hid Hname Hcidr Hsub.
  pose proof (_process_vpc_behaves v self) as H.
  unfold vpc_ok, vpc_lines, vpc_block, igw_section, vpc_header, igw_node, sanitize,
    text, elements in H.
  rewrite Hid, Hname, Hcidr, Hsub in H. exact H.
Qed.

Lemma vpc_without_subnets_witness :
  fst (_process_vpc Samples.vpc_no_subnets (init Example.model)) = Ok tt.
Proof.
  rewrite (vpc_without_subnets Samples.vpc_no_subnets "vpc-7" "empty" "10.7.0.0/16" _
             eq_refl eq_refl eq_refl eq_refl).
  reflexivity.
Defined.

(** * Properties of the collector *)

Import Collector Built.
Local Open Scope result_scope.

(** ** Name tags *)

Lemma next_name_value_skip (before after : list raw_tag) :
  forallb other_tag before = true ->
  next_name_value (before ++ after) = next_name_value after.
Proof.
  induction before as [|tag rest IH]; [reflexivity|].
  cbn [forallb app next_name_value]. intros H. apply andb_prop in H as [Htag Hrest].
  unfold other_tag in Htag. destruct (tag_Key tag) as [key|]; [|discriminate Htag].
  cbn [subscript and_then]. apply negb_true_iff in Htag. rewrite Htag.
  now apply IH.
Qed.

(** X7. [get_name_tag] returns the [Value] of the first tag whose [Key] is
    ["Name"], whatever follows it, and ["Unnamed"] when no tag has that
    key (in particular for no tags at all).  It raises [KeyError('Key')]
    when a tag without [Key] comes before any [Name] tag, and
    [KeyError('Value')] when the first [Name] tag has no [Value]. *)
Theorem get_name_tag_first_name (before after : list raw_tag) (tag : raw_tag) :
  forallb other_tag before = true ->
  get_name_tag before = Ok "Unnamed"
  /\ (tag_Key tag = Some "Name" ->
      get_name_tag (before ++ tag :: after) = subscript "Value" (tag_Value tag))
  /\ (tag_Key tag = None ->
      get_name_tag (before ++ tag :: after) = Raise (KeyError "Key")).
Proof.
  intros Hbefore.
  assert (Hget : forall tags, get_name_tag tags = next_name_value tags)
    by (intros [|t ts]; reflexivity).
  rewrite !Hget. split; [|split].
  - rewrite <- (app_nil_r before), next_name_value_skip by assumption. reflexivity.
  - intros Hkey. rewrite next_name_value_skip by assumption.
    cbn [next_name_value]. rewrite Hkey. reflexivity.
  - intros Hkey. rewrite next_name_value_skip by assumption.
    cbn [next_name_value]. rewrite Hkey. reflexivity.
Qed.

Lemma get_name_tag_first_name_witness :
  get_name_tag [ {| tag_Key := Some "Env"; tag_Value := None |};
                 {| tag_Key := Some "Name"; tag_Value := Some "main" |};
                 {| tag_Key := None; tag_Value := None |} ]
  = Ok "main".
Proof.
  destruct (get_name_tag_first_name
              [ {| tag_Key := Some "Env"; tag_Value := None |} ]
              [ {| tag_Key := None; tag_Value := None |} ]
              {| tag_Key := Some "Name"; tag_Value := Some "main" |} eq_refl)
    as (_ & H & _).
  exact (H eq_refl).
Defined.

(** ** Routes *)

Lemma next_id_value_skip (before after : Mapper.raw_route) (default : string) :
  forallb (fun kv => negb (Py.endswith (fst kv) "Id")) before = true ->
  Mapper.next_id_value (before ++ after)%list default = Mapper.next_id_value after default.
Proof.
  induction before as [|[k v] rest IH]; [reflexivity|].
  cbn [forallb app Mapper.next_id_value fst]. intros H.
  apply andb_prop in H as [Hk Hrest]. apply negb_true_iff in Hk. rewrite Hk.
  now apply IH.
Qed.

(** X8. The target the collector records for a route is the value under
    the first key of the route, in the order of the response, that ends in
    ["Id"], whichever key that is; the destination is the value under
    [DestinationCidrBlock] and nothing else.  So a route to a prefix list,
    which has [DestinationPrefixListId] and no [DestinationCidrBlock], is
    recorded with destination ["Unknown"] and, when that key comes before
    the key of the gateway, with the prefix list as its target. *)
Theorem route_target_is_first_id_key
        (before after : Mapper.raw_route) (key value : string) :
  forallb (fun kv => negb (Py.endswith (fst kv) "Id")) before = true ->
  Py.endswith key "Id" = true ->
  route_target (Mapper.route_data (before ++ (key, value) :: after)%list) = Some value
  /\ (~ In "DestinationCidrBlock" (map fst (before ++ (key, value) :: after)%list) ->
      route_destination (Mapper.route_data (before ++ (key, value) :: after)%list)
      = Some "Unknown").
Proof.
  intros Hbefore Hkey. split.
  - cbn [Mapper.route_data route_target].
    rewrite next_id_value_skip by assumption.
    cbn [Mapper.next_id_value]. now rewrite Hkey.
  - intros Habsent. cbn [Mapper.route_data route_destination].
    now rewrite raw_get_absent.
Qed.

Lemma route_target_is_first_id_key_witness :
  Mapper.route_data [("State", "active"); ("DestinationPrefixListId", "pl-1");
                     ("GatewayId", "igw-1")]
  = {| route_destination := Some "Unknown"; route_target := Some "pl-1" |}.
Proof.
  destruct (route_target_is_first_id_key
              [("State", "active")] [("GatewayId", "igw-1")]
              "DestinationPrefixListId" "pl-1" eq_refl eq_refl) as [Ht Hd].
  assert (D : route_destination
                (Mapper.route_data [("State", "active");
                                    ("DestinationPrefixListId", "pl-1");
                                    ("GatewayId", "igw-1")])
              = Some "Unknown").
  { apply Hd. cbn. intros [H|[H|[H|[]]]]; discriminate H. }
  reflexivity.
Defined.

(** ** Associations *)

Lemma associated_subnet_ids_In (associations : list raw_association) (id : string) :
  In id (associated_subnet_ids associations)
  <-> In {| assoc_SubnetId := Some id |} associations.
Proof.
  induction associations as [|[sid] rest IH]; [reflexivity|].
  cbn [associated_subnet_ids assoc_SubnetId In]. destruct sid as [id'|].
  - cbn [In]. rewrite IH. split.
    + intros [->|H]; [now left|now right].
    + intros [H|H]; [left; now inversion H|now right].
  - rewrite IH. split.
    + intros H; now right.
    + intros [H|H]; [discriminate H|exact H].
Qed.

(** [x in [assoc['SubnetId'] for assoc in associations if 'SubnetId' in assoc]]
    read on the associations of the response. *)
Lemma contains_associated_subnet_ids (id : string) (associations : list raw_association) :
  Py.contains id (associated_subnet_ids associations)
  = existsb (fun assoc => match assoc_SubnetId assoc with
                          | Some named => String.eqb id named
                          | None => false
                          end) associations.
Proof.
  unfold Py.contains.
  induction associations as [|[[named|]] rest IH]; [reflexivity| |exact IH].
  cbn [associated_subnet_ids assoc_SubnetId existsb]. now rewrite IH.
Qed.

Lemma associated_built (raw : raw_route_table) (rt : route_table) (s : subnet)
      (id : string) :
  rt_data raw = Ok rt ->
  subnet_id s = Some id ->
  associated s rt
  = existsb (fun assoc => match assoc_SubnetId assoc with
                          | Some named => String.eqb id named
                          | None => false
                          end) (get (Associations raw) []).
Proof.
  intros Hrt Hid. unfold rt_data in Hrt.
  destruct (Routes raw); [|discriminate Hrt].
  destruct (RouteTableId raw); [|discriminate Hrt].
  cbn [subscript and_then] in Hrt.
  destruct (get_name_tag _); [|discriminate Hrt].
  cbn [and_then] in Hrt. inversion Hrt as [Hbuilt]. clear Hrt.
  unfold associated, text. rewrite Hid. cbn [get rt_subnet_associations].
  apply contains_associated_subnet_ids.
Qed.

Lemma each_filter {A B} (f : A -> result B) (p : A -> bool) (q : B -> bool)
      (xs : list A) (ys : list B) :
  (forall x y, f x = Ok y -> q y = p x) ->
  each f xs = Ok ys ->
  each f (filter p xs) = Ok (filter q ys).
Proof.
  intros Hpq. revert ys. induction xs as [|x rest IH]; intros ys H.
  - inversion H. reflexivity.
  - cbn [each] in H. destruct (f x) as [y|] eqn:Ey; [|discriminate H].
    cbn [and_then] in H. destruct (each f rest) as [ys'|]; [|discriminate H].
    cbn [and_then] in H. inversion H as [Hys]. clear H.
    cbn [filter]. rewrite (Hpq x y Ey).
    destruct (p x); [|now apply IH].
    cbn [each]. rewrite Ey. cbn [and_then]. now rewrite (IH ys' eq_refl).
Qed.

(** X9. Let the route tables of a VPC [v] be those the collector builds
    from the entries of a [describe_route_tables] response.  Running
    [_process_subnet] on a subnet [s] of identifier [id] then appends the
    header of [s], the node and the edge into the block of [s] of every
    entry of the response one of whose [Associations] has [SubnetId]
    equal to [id], in the order of the response, the security-group
    section and the footer.  Associations without [SubnetId], such as
    that of a main route table, count for nothing: when no entry has an
    association with [SubnetId] equal to [id], no route table is drawn in
    the block of [s]. *)
Theorem route_table_drawn_under_named_subnets
        (raws : list raw_route_table) (tables : list route_table)
        (v : vpc) (s : subnet) (id : string) (self : generator) :
  each rt_data raws = Ok tables ->
  vpc_route_tables v = Some tables ->
  subnet_id s = Some id ->
  subnet_ok v s = true ->
  exists named drawn,
    named = filter (fun raw =>
                      existsb (fun assoc => match assoc_SubnetId assoc with
                                            | Some named => String.eqb id named
                                            | None => false
                                            end) (get (Associations raw) []))
                   raws
    /\ each rt_data named = Ok drawn
    /\ _process_subnet s v self
       = (Ok tt, extend_by self
                   (subnet_header s
                      :: flat_map (fun rt => [rt_node rt; rt_edge rt (sanitize id)]) drawn
                      ++ sg_section v s ++ [subnet_footer]))
    /\ (forall raw, In raw named
                    <-> In raw raws
                        /\ In {| assoc_SubnetId := Some id |} (get (Associations raw) []))
    /\ (named = [] ->
        _process_subnet s v self
        = (Ok tt, extend_by self (subnet_header s :: sg_section v s ++ [subnet_footer]))).
Proof.
  intros Hbuilt Htables Hid Hok.
  pose proof (each_filter rt_data
                (fun raw =>
                   existsb (fun assoc => match assoc_SubnetId assoc with
                                         | Some named => String.eqb id named
                                         | None => false
                                         end) (get (Associations raw) []))
                (associated s) raws tables
                (fun raw rt Hrt => associated_built raw rt s id Hrt Hid) Hbuilt)
    as Hdrawn.
  pose proof (_process_subnet_behaves s v self) as Hrun. rewrite Hok in Hrun.
  unfold subnet_block, rt_section, route_tables_for, rt_lines, subnet_block_id, text,
    elements in Hrun.
  rewrite Htables, Hid in Hrun. cbn [get] in Hrun.
  eexists. exists (filter (associated s) tables).
  split; [reflexivity|]. split; [exact Hdrawn|]. split; [exact Hrun|]. split.
  - intros raw. rewrite filter_In, existsb_exists. split.
    + intros [Hin ([[named|]] & Hassoc & Heq)]; [|discriminate Heq].
      apply String.eqb_eq in Heq. subst named. now split.
    + intros [Hin Hassoc]. split; [exact Hin|].
      exists {| assoc_SubnetId := Some id |}. split; [exact Hassoc|].
      cbn [assoc_SubnetId]. apply String.eqb_refl.
  - intros Hnone. rewrite Hnone in Hdrawn. cbn [each] in Hdrawn.
    inversion Hdrawn as [Hempty]. rewrite <- Hempty in Hrun. exact Hrun.
Qed.

Lemma route_table_drawn_under_named_subnets_witness :
  exists lines,
    _process_subnet Example.subnet_1 Samples.vpc_with_built_tables (init Example.model)
    = (Ok tt, extend_by (init Example.model) lines)
    /\ lines
       = ["            subgraph subnet_subnet_1[" ++ Py.dq
            ++ "Public Subnet (10.0.1.0/24)" ++ Py.dq ++ "]";
          "                rt_rtb_1[" ++ Py.dq
            ++ "Route Table<br/>- 0.0.0.0/0 → igw-1" ++ Py.dq ++ "]";
          "                rt_rtb_1 --> subnet_subnet_1";
          "            end"].
Proof.
  destruct (route_table_drawn_under_named_subnets
              Samples.raw_tables Samples.built_tables Samples.vpc_with_built_tables
              Example.subnet_1 "subnet-1" (init Example.model)
              eq_refl eq_refl eq_refl eq_refl)
    as (named & drawn & Hnamed & Hdrawn & Hrun & _).
  rewrite Hnamed in Hdrawn. inversion Hdrawn as [Hvalue]. clear Hdrawn.
  rewrite <- Hvalue in Hrun.
  eexists. split; [exact Hrun|]. reflexivity.
Defined.

(** ** What the collector returns can be drawn *)

Lemma each_forall {A B} (f : A -> result B) (p : A -> bool) (q : B -> bool)
      (xs : list A) (ys : list B) :
  (forall x y, p x = true -> f x = Ok y -> q y = true) ->
  forallb p xs = true -> each f xs = Ok ys -> forallb q ys = true.
Proof.
  intros Hf. revert ys. induction xs as [|x rest IH]; intros ys Hp H.
  - inversion H. reflexivity.
  - cbn [forallb] in Hp. apply andb_prop in Hp as [Hx Hrest].
    cbn [each] in H. destruct (f x) as [y|e] eqn:Ey; [|discriminate H].
    cbn [and_then] in H. destruct (each f rest) as [ys'|e]; [|discriminate H].
    cbn [and_then] in H. inversion H. subst ys. cbn [forallb].
    rewrite (Hf x y Hx Ey). now rewrite (IH ys' Hrest eq_refl).
Qed.

Lemma forallb_true {A} (xs : list A) : forallb (fun _ => true) xs = true.
Proof. induction xs; [reflexivity|assumption]. Qed.

Lemma rule_data_ok (rule : Mapper.raw_permission) (built : ingress_rule) :
  Mapper.rule_data rule = Ok built -> rule_ok built = true.
Proof.
  unfold Mapper.rule_data. destruct (Mapper.cidr_ips _); intros H; inversion H.
  reflexivity.
Qed.

Lemma vpc_data_built (raw : raw_vpc) (v : vpc) :
  vpc_data raw = Ok v -> vpc_built v = true.
Proof.
  unfold vpc_data. destruct (VpcId raw); [|discriminate].
  cbn [subscript and_then]. destruct (get_name_tag _); [|discriminate].
  cbn [and_then]. destruct (vpc_CidrBlock raw); [|discriminate].
  cbn [subscript and_then]. intros H. inversion H. reflexivity.
Qed.

Lemma subnet_data_built (raw : raw_subnet) (s : subnet) :
  subnet_data raw = Ok s -> subnet_built s = true.
Proof.
  unfold subnet_data. destruct (SubnetId raw); [|discriminate].
  cbn [subscript and_then]. destruct (get_name_tag _); [|discriminate].
  cbn [and_then]. destruct (subnet_CidrBlock raw); [|discriminate].
  cbn [subscript and_then]. destruct (AvailabilityZone raw); [|discriminate].
  cbn [subscript and_then]. intros H. inversion H. reflexivity.
Qed.

Lemma rt_data_ok (raw : raw_route_table) (rt : route_table) :
  rt_data raw = Ok rt -> rt_ok rt = true.
Proof.
  unfold rt_data. destruct (Routes raw) as [routes|]; [|discriminate].
  cbn [subscript and_then]. destruct (RouteTableId raw); [|discriminate].
  cbn [subscript and_then]. destruct (get_name_tag _); [|discriminate].
  cbn [and_then]. intros H. inversion H. unfold rt_ok. cbn.
  apply forallb_forall. intros r Hr. apply in_map_iff in Hr as (x & <- & _).
  reflexivity.
Qed.

Lemma sg_data_ok (raw : raw_security_group) (sg : security_group) :
  sg_data raw = Ok sg -> sg_ok sg = true.
Proof.
  unfold sg_data. destruct (IpPermissions raw) as [permissions|]; [|discriminate].
  cbn [subscript and_then].
  destruct (each Mapper.rule_data permissions) as [rules|] eqn:Erules; [|discriminate].
  cbn [and_then]. destruct (GroupId raw); [|discriminate].
  cbn [subscript and_then]. destruct (GroupName raw); [|discriminate].
  cbn [subscript and_then]. destruct (Description raw); [|discriminate].
  cbn [subscript and_then]. intros H. inversion H. unfold sg_ok. cbn.
  rewrite andb_true_r.
  apply (each_forall Mapper.rule_data (fun _ => true) rule_ok permissions rules).
  - intros x y _. apply rule_data_ok.
  - apply forallb_true.
  - exact Erules.
Qed.

Lemma fill_keeps {R E} (build : R -> result E) (append : vpc -> E -> result vpc)
      (q : E -> bool) (raws : list R) (v v' : vpc) :
  (forall raw e, build raw = Ok e -> q e = true) ->
  (forall v0 e v1, vpc_built v0 = true -> q e = true -> append v0 e = Ok v1 ->
                   vpc_built v1 = true) ->
  vpc_built v = true -> fill build append raws v = Ok v' -> vpc_built v' = true.
Proof.
  intros Hbuild Happend. revert v. induction raws as [|raw rest IH]; intros v Hv H.
  - inversion H. now subst.
  - cbn [fill] in H. destruct (build raw) as [e|] eqn:Ee; [|discriminate H].
    cbn [and_then] in H. destruct (append v e) as [v1|] eqn:Ev1; [|discriminate H].
    cbn [and_then] in H. apply (IH v1); [|exact H].
    apply (Happend v e v1 Hv); [|exact Ev1]. exact (Hbuild raw e Ee).
Qed.

Ltac split_hyps :=
  repeat match goal with
         | H : (_ && _) = true |- _ => apply andb_prop in H; destruct H
         | H : true = true |- _ => clear H
         end.

Ltac use_hyps :=
  repeat match goal with
         | H : ?b = true |- context [?b] => rewrite H
         end;
  cbn [andb].

Ltac built_fields :=
  unfold vpc_built, all in *;
  cbn [present elements get andb vpc_id vpc_name vpc_cidr vpc_subnets
       vpc_route_tables vpc_security_groups] in *.

Lemma append_subnet_built (v : vpc) (s : subnet) (v' : vpc) :
  vpc_built v = true -> subnet_built s = true -> append_subnet v s = Ok v' ->
  vpc_built v' = true.
Proof.
  intros Hv Hs H. unfold append_subnet in H.
  destruct (vpc_subnets v) as [subnets|] eqn:E; [|discriminate H].
  cbn [subscript and_then] in H. inversion H. clear H.
  unfold vpc_built, all in Hv. rewrite E in Hv.
  built_fields. split_hyps. rewrite forallb_app. cbn [forallb]. use_hyps.
  reflexivity.
Qed.

Lemma append_route_table_built (v : vpc) (rt : route_table) (v' : vpc) :
  vpc_built v = true -> rt_ok rt = true -> append_route_table v rt = Ok v' ->
  vpc_built v' = true.
Proof.
  intros Hv Hrt H. unfold append_route_table in H.
  destruct (vpc_route_tables v) as [rts|] eqn:E; [|discriminate H].
  cbn [subscript and_then] in H. inversion H. clear H.
  unfold vpc_built, all in Hv. rewrite E in Hv.
  built_fields. split_hyps. rewrite forallb_app. cbn [forallb]. use_hyps.
  reflexivity.
Qed.

Lemma append_security_group_built (v : vpc) (sg : security_group) (v' : vpc) :
  vpc_built v = true -> sg_ok sg = true -> append_security_group v sg = Ok v' ->
  vpc_built v' = true.
Proof.
  intros Hv Hsg H. unfold append_security_group in H.
  destruct (vpc_security_groups v) as [sgs|] eqn:E; [|discriminate H].
  cbn [subscript and_then] in H. inversion H. clear H.
  unfold vpc_built, all in Hv. rewrite E in Hv.
  built_fields. split_hyps. rewrite forallb_app. cbn [forallb]. use_hyps.
  reflexivity.
Qed.

Lemma collect_subnets_built (ec2 : ec2_client) (v v' : vpc) :
  vpc_built v = true -> collect_subnets ec2 v = Ok v' -> vpc_built v' = true.
Proof.
  intros Hv H. unfold collect_subnets in H.
  destruct (vpc_id v) as [id|]; [|discriminate H]. cbn [subscript and_then] in H.
  destruct (describe_subnets ec2 id) as [raws|]; [|discriminate H].
  cbn [subscript and_then] in H.
  exact (fill_keeps subnet_data append_subnet subnet_built raws v v'
           subnet_data_built append_subnet_built Hv H).
Qed.

Lemma collect_route_tables_built (ec2 : ec2_client) (v v' : vpc) :
  vpc_built v = true -> collect_route_tables ec2 v = Ok v' -> vpc_built v' = true.
Proof.
  intros Hv H. unfold collect_route_tables in H.
  destruct (vpc_id v) as [id|]; [|discriminate H]. cbn [subscript and_then] in H.
  destruct (describe_route_tables ec2 id) as [raws|]; [|discriminate H].
  cbn [subscript and_then] in H.
  exact (fill_keeps rt_data append_route_table rt_ok raws v v'
           rt_data_ok append_route_table_built Hv H).
Qed.

Lemma collect_security_groups_built (ec2 : ec2_client) (v v' : vpc) :
  vpc_built v = true -> collect_security_groups ec2 v = Ok v' -> vpc_built v' = true.
Proof.
  intros Hv H. unfold collect_security_groups in H.
  destruct (vpc_id v) as [id|]; [|discriminate H]. cbn [subscript and_then] in H.
  destruct (describe_security_groups ec2 id) as [raws|]; [|discriminate H].
  cbn [subscript and_then] in H.
  exact (fill_keeps sg_data append_security_group sg_ok raws v v'
           sg_data_ok append_security_group_built Hv H).
Qed.

Lemma vpc_built_ok (v : vpc) : vpc_built v = true -> vpc_ok v = true.
Proof.
  intros H. unfold vpc_built, all in H. split_hyps.
  assert (Hsub : forall s, In s (elements (vpc_subnets v)) -> subnet_built s = true)
    by now apply forallb_forall.
  assert (Hrt : forall rt, In rt (elements (vpc_route_tables v)) -> rt_ok rt = true)
    by now apply forallb_forall.
  assert (Haz : forallb (fun s => present (subnet_az s)) (elements (vpc_subnets v))
                = true).
  { apply forallb_forall. intros s Hs. specialize (Hsub s Hs).
    unfold subnet_built in Hsub. now split_hyps. }
  assert (Hs_ok : forallb (subnet_ok v) (elements (vpc_subnets v)) = true).
  { apply forallb_forall. intros s Hs. specialize (Hsub s Hs).
    unfold subnet_built in Hsub. split_hyps. unfold subnet_ok.
    assert (Himp : forallb (fun rt => implb (associated s rt) (rt_ok rt))
                           (elements (vpc_route_tables v)) = true).
    { apply forallb_forall. intros rt Hin. rewrite (Hrt rt Hin).
      now destruct (associated s rt). }
    use_hyps. reflexivity. }
  unfold vpc_ok. use_hyps. reflexivity.
Qed.

Lemma collect_built (ec2 : ec2_client) (aws_request_id : string) (m : network_data) :
  collect ec2 aws_request_id = Ok m ->
  nd_vpcs m <> None /\ forallb vpc_built (elements (nd_vpcs m)) = true.
Proof.
  unfold collect. intros H.
  destruct (describe_vpcs ec2) as [raws|]; [|discriminate H].
  cbn [subscript and_then] in H.
  destruct (each vpc_data raws) as [vpcs0|] eqn:E0; [|discriminate H].
  cbn [and_then] in H.
  destruct (each (collect_subnets ec2) vpcs0) as [vpcs1|] eqn:E1; [|discriminate H].
  cbn [and_then] in H.
  destruct (each (collect_route_tables ec2) vpcs1) as [vpcs2|] eqn:E2; [|discriminate H].
  cbn [and_then] in H.
  destruct (each (collect_security_groups ec2) vpcs2) as [vpcs3|] eqn:E3;
    [|discriminate H].
  cbn [and_then] in H. inversion H. cbn [nd_vpcs elements get].
  split; [discriminate|].
  assert (B0 : forallb vpc_built vpcs0 = true).
  { apply (each_forall vpc_data (fun _ => true) vpc_built raws vpcs0);
      [intros x y _; apply vpc_data_built|apply forallb_true|exact E0]. }
  assert (B1 : forallb vpc_built vpcs1 = true).
  { apply (each_forall (collect_subnets ec2) vpc_built vpc_built vpcs0 vpcs1);
      [intros x y; apply collect_subnets_built|exact B0|exact E1]. }
  assert (B2 : forallb vpc_built vpcs2 = true).
  { apply (each_forall (collect_route_tables ec2) vpc_built vpc_built vpcs1 vpcs2);
      [intros x y; apply collect_route_tables_built|exact B1|exact E2]. }
  apply (each_forall (collect_security_groups ec2) vpc_built vpc_built vpcs2 vpcs3);
    [intros x y; apply collect_security_groups_built|exact B2|exact E3].
Qed.

Lemma collected_run (ec2 : ec2_client) (aws_request_id : string) (m : network_data) :
  collect ec2 aws_request_id = Ok m ->
  required_present m = true
  /\ generate_diagram (init m)
     = (Ok (Py.join (Py.nl ++ "    ") (diagram_lines m)),
        {| data := m; diagram := diagram_lines m |}).
Proof.
  intros H. apply collect_built in H as [Hsome Hbuilt].
  assert (Hok : required_present m = true).
  { unfold required_present. destruct (nd_vpcs m) as [vpcs|]; [|contradiction].
    cbn [present andb elements get] in Hbuilt |- *.
    apply forallb_forall. intros v Hv. rewrite forallb_forall in Hbuilt.
    apply vpc_built_ok, Hbuilt, Hv. }
  split; [exact Hok|].
  pose proof (generate_diagram_run (init m)) as Hrun. cbn [init data] in Hrun.
  now rewrite Hok in Hrun.
Qed.

(** X10. Whatever the responses of the client, a model the collector
    returns can be drawn: it carries every key the generator subscripts,
    so [generate_diagram] on it returns the diagram and raises nothing. *)
Theorem collected_model_is_drawn
        (ec2 : ec2_client) (aws_request_id : string) (m : network_data) :
  collect ec2 aws_request_id = Ok m ->
  required_present m = true
  /\ generate_diagram (init m)
     = (Ok (Py.join (Py.nl ++ "    ") (diagram_lines m)),
        {| data := m; diagram := diagram_lines m |}).
Proof. apply collected_run. Qed.

Lemma collected_model_is_drawn_witness :
  exists m,
    collect sample_client "req-1" = Ok m
    /\ fst (generate_diagram (init m))
       = Ok (Py.join (Py.nl ++ "    ") (diagram_lines m)).
Proof.
  destruct (collect sample_client "req-1") as [m|e] eqn:E; [|discriminate E].
  exists m. split; [reflexivity|].
  destruct (collected_model_is_drawn sample_client "req-1" m E) as [_ H].
  now rewrite H.
Defined.

(** ** Complete responses *)

Lemma next_name_value_total (tags : list raw_tag) :
  forallb tag_complete tags = true -> exists name, next_name_value tags = Ok name.
Proof.
  induction tags as [|tag rest IH]; [now exists "Unnamed"|].
  cbn [forallb next_name_value]. intros H. apply andb_prop in H as [Htag Hrest].
  unfold tag_complete in Htag.
  destruct (tag_Key tag) as [key|]; [|discriminate Htag].
  destruct (tag_Value tag) as [value|]; [|discriminate Htag].
  cbn [subscript and_then]. destruct (String.eqb key "Name").
  - now exists value.
  - now apply IH.
Qed.

Lemma get_name_tag_total (tags : option (list raw_tag)) :
  tags_complete tags = true -> exists name, get_name_tag (get tags []) = Ok name.
Proof.
  unfold tags_complete. intros H.
  destruct (next_name_value_total _ H) as [name Hname]. exists name.
  destruct (get tags []); exact Hname.
Qed.

Lemma each_total {A B} (f : A -> result B) (p : A -> bool) (xs : list A) :
  (forall x, p x = true -> exists y, f x = Ok y) ->
  forallb p xs = true -> exists ys, each f xs = Ok ys.
Proof.
  intros Hf. induction xs as [|x rest IH]; [now exists []|].
  cbn [forallb each]. intros H. apply andb_prop in H as [Hx Hrest].
  destruct (Hf x Hx) as [y ->]. destruct (IH Hrest) as [ys ->].
  now exists (y :: ys).
Qed.

Lemma vpc_data_total (raw : raw_vpc) :
  raw_vpc_complete raw = true -> exists v, vpc_data raw = Ok v.
Proof.
  unfold raw_vpc_complete, vpc_data. intros H. split_hyps.
  destruct (VpcId raw); [|discriminate].
  destruct (vpc_CidrBlock raw); [|discriminate].
  destruct (get_name_tag_total (vpc_Tags raw)) as [name ->]; [assumption|].
  cbn [subscript and_then]. eexists. reflexivity.
Qed.

Lemma subnet_data_total (raw : raw_subnet) :
  raw_subnet_complete raw = true -> exists s, subnet_data raw = Ok s.
Proof.
  unfold raw_subnet_complete, subnet_data. intros H. split_hyps.
  destruct (SubnetId raw); [|discriminate].
  destruct (subnet_CidrBlock raw); [|discriminate].
  destruct (AvailabilityZone raw); [|discriminate].
  destruct (get_name_tag_total (subnet_Tags raw)) as [name ->]; [assumption|].
  cbn [subscript and_then]. eexists. reflexivity.
Qed.

Lemma rt_data_total (raw : raw_route_table) :
  raw_route_table_complete raw = true -> exists rt, rt_data raw = Ok rt.
Proof.
  unfold raw_route_table_complete, rt_data. intros H. split_hyps.
  destruct (Routes raw); [|discriminate].
  destruct (RouteTableId raw); [|discriminate].
  destruct (get_name_tag_total (rt_Tags raw)) as [name ->]; [assumption|].
  cbn [subscript and_then]. eexists. reflexivity.
Qed.

Lemma cidr_ips_total (ranges : list Mapper.raw_ip_range) :
  forallb (fun ip_range => present (Mapper.CidrIp ip_range)) ranges = true ->
  exists sources, Mapper.cidr_ips ranges = Ok sources.
Proof.
  induction ranges as [|r rest IH]; [now exists []|].
  cbn [forallb Mapper.cidr_ips]. intros H. apply andb_prop in H as [Hr Hrest].
  destruct (Mapper.CidrIp r); [|discriminate Hr].
  destruct (IH Hrest) as [sources ->]. eexists. reflexivity.
Qed.

Lemma rule_data_total (rule : Mapper.raw_permission) :
  raw_permission_complete rule = true -> exists built, Mapper.rule_data rule = Ok built.
Proof.
  unfold raw_permission_complete, Mapper.rule_data. intros H.
  destruct (cidr_ips_total _ H) as [sources ->]. eexists. reflexivity.
Qed.

Lemma sg_data_total (raw : raw_security_group) :
  raw_security_group_complete raw = true -> exists sg, sg_data raw = Ok sg.
Proof.
  unfold raw_security_group_complete, sg_data. intros H. split_hyps.
  destruct (IpPermissions raw) as [permissions|]; [|discriminate].
  destruct (GroupId raw); [|discriminate].
  destruct (GroupName raw); [|discriminate].
  destruct (Description raw); [|discriminate].
  cbn [subscript and_then get] in *.
  destruct (each_total Mapper.rule_data raw_permission_complete permissions
              rule_data_total) as [rules ->]; [assumption|].
  cbn [and_then]. eexists. reflexivity.
Qed.

Lemma fill_total {R E} (build : R -> result E) (append : vpc -> E -> result vpc)
      (complete : R -> bool) (q : E -> bool) (raws : list R) (v : vpc) :
  (forall raw, complete raw = true -> exists e, build raw = Ok e) ->
  (forall raw e, build raw = Ok e -> q e = true) ->
  (forall v0 e, vpc_built v0 = true -> exists v1, append v0 e = Ok v1) ->
  (forall v0 e v1, vpc_built v0 = true -> q e = true -> append v0 e = Ok v1 ->
                   vpc_built v1 = true) ->
  forallb complete raws = true -> vpc_built v = true ->
  exists v', fill build append raws v = Ok v'.
Proof.
  intros Hbuild Hq Happend Hkeep. revert v.
  induction raws as [|raw rest IH]; intros v Hc Hv; [now exists v|].
  cbn [forallb] in Hc. apply andb_prop in Hc as [Hraw Hrest].
  cbn [fill]. destruct (Hbuild raw Hraw) as [e He]. rewrite He.
  cbn [and_then]. destruct (Happend v e Hv) as [v1 Hv1]. rewrite Hv1.
  cbn [and_then]. apply (IH v1 Hrest).
  exact (Hkeep v e v1 Hv (Hq raw e He) Hv1).
Qed.

Lemma append_subnet_total (v : vpc) (s : subnet) :
  vpc_built v = true -> exists v', append_subnet v s = Ok v'.
Proof.
  intros H. unfold vpc_built, all in H. split_hyps. unfold append_subnet.
  destruct (vpc_subnets v); [|discriminate]. eexists. reflexivity.
Qed.

Lemma append_route_table_total (v : vpc) (rt : route_table) :
  vpc_built v = true -> exists v', append_route_table v rt = Ok v'.
Proof.
  intros H. unfold vpc_built, all in H. split_hyps. unfold append_route_table.
  destruct (vpc_route_tables v); [|discriminate]. eexists. reflexivity.
Qed.

Lemma append_security_group_total (v : vpc) (sg : security_group) :
  vpc_built v = true -> exists v', append_security_group v sg = Ok v'.
Proof.
  intros H. unfold vpc_built, all in H. split_hyps. unfold append_security_group.
  destruct (vpc_security_groups v); [|discriminate]. eexists. reflexivity.
Qed.

Lemma built_has_id (v : vpc) : vpc_built v = true -> exists id, vpc_id v = Some id.
Proof.
  intros H. unfold vpc_built in H. split_hyps.
  destruct (vpc_id v) as [id|]; [now exists id|discriminate].
Qed.

Section CompleteResponses.

Variable ec2 : ec2_client.
Hypothesis complete : responses_complete ec2.

Lemma collect_subnets_total (v : vpc) :
  vpc_built v = true -> exists v', collect_subnets ec2 v = Ok v'.
Proof.
  intros Hv. destruct (built_has_id v Hv) as [id Hid].
  destruct complete as [_ Hall]. destruct (Hall id) as (Hs & _ & _).
  unfold all_complete in Hs. apply andb_prop in Hs as [Hp Hc].
  unfold collect_subnets. rewrite Hid. cbn [subscript and_then].
  destruct (describe_subnets ec2 id) as [raws|]; [|discriminate Hp].
  cbn [subscript and_then get] in *.
  exact (fill_total subnet_data append_subnet raw_subnet_complete subnet_built raws v
           subnet_data_total subnet_data_built
           (fun v0 e => append_subnet_total v0 e) append_subnet_built Hc Hv).
Qed.

Lemma collect_route_tables_total (v : vpc) :
  vpc_built v = true -> exists v', collect_route_tables ec2 v = Ok v'.
Proof.
  intros Hv. destruct (built_has_id v Hv) as [id Hid].
  destruct complete as [_ Hall]. destruct (Hall id) as (_ & Hr & _).
  unfold all_complete in Hr. apply andb_prop in Hr as [Hp Hc].
  unfold collect_route_tables. rewrite Hid. cbn [subscript and_then].
  destruct (describe_route_tables ec2 id) as [raws|]; [|discriminate Hp].
  cbn [subscript and_then get] in *.
  exact (fill_total rt_data append_route_table raw_route_table_complete rt_ok raws v
           rt_data_total rt_data_ok
           (fun v0 e => append_route_table_total v0 e) append_route_table_built Hc Hv).
Qed.

Lemma collect_security_groups_total (v : vpc) :
  vpc_built v = true -> exists v', collect_security_groups ec2 v = Ok v'.
Proof.
  intros Hv. destruct (built_has_id v Hv) as [id Hid].
  destruct complete as [_ Hall]. destruct (Hall id) as (_ & _ & Hg).
  unfold all_complete in Hg. apply andb_prop in Hg as [Hp Hc].
  unfold collect_security_groups. rewrite Hid. cbn [subscript and_then].
  destruct (describe_security_groups ec2 id) as [raws|]; [|discriminate Hp].
  cbn [subscript and_then get] in *.
  exact (fill_total sg_data append_security_group raw_security_group_complete sg_ok
           raws v sg_data_total sg_data_ok
           (fun v0 e => append_security_group_total v0 e)
           append_security_group_built Hc Hv).
Qed.

Lemma collect_total (aws_request_id : string) :
  exists m, collect ec2 aws_request_id = Ok m.
Proof.
  destruct complete as [Hvpcs _]. unfold all_complete in Hvpcs.
  apply andb_prop in Hvpcs as [Hp Hc]. unfold collect.
  destruct (describe_vpcs ec2) as [raws|]; [|discriminate Hp].
  cbn [subscript and_then get] in *.
  destruct (each_total vpc_data raw_vpc_complete raws vpc_data_total Hc)
    as [vpcs0 E0]. rewrite E0. cbn [and_then].
  assert (B0 : forallb vpc_built vpcs0 = true).
  { apply (each_forall vpc_data (fun _ => true) vpc_built raws vpcs0);
      [intros x y _; apply vpc_data_built|apply forallb_true|exact E0]. }
  destruct (each_total (collect_subnets ec2) vpc_built vpcs0 collect_subnets_total B0)
    as [vpcs1 E1]. rewrite E1. cbn [and_then].
  assert (B1 : forallb vpc_built vpcs1 = true).
  { apply (each_forall (collect_subnets ec2) vpc_built vpc_built vpcs0 vpcs1);
      [intros x y; apply collect_subnets_built|exact B0|exact E1]. }
  destruct (each_total (collect_route_tables ec2) vpc_built vpcs1
              collect_route_tables_total B1) as [vpcs2 E2].
  rewrite E2. cbn [and_then].
  assert (B2 : forallb vpc_built vpcs2 = true).
  { apply (each_forall (collect_route_tables ec2) vpc_built vpc_built vpcs1 vpcs2);
      [intros x y; apply collect_route_tables_built|exact B1|exact E2]. }
  destruct (each_total (collect_security_groups ec2) vpc_built vpcs2
              collect_security_groups_total B2) as [vpcs3 E3].
  rewrite E3. cbn [and_then]. eexists. reflexivity.
Qed.

End CompleteResponses.

(** X11. When every response carries the keys the collector subscripts
    ([Vpcs], [VpcId], [CidrBlock], [Subnets], [SubnetId],
    [AvailabilityZone], [RouteTables], [Routes], [RouteTableId],
    [SecurityGroups], [IpPermissions], [GroupId], [GroupName],
    [Description], [CidrIp], and [Key] and [Value] of every tag), the
    collector returns a model, and the generator returns the diagram of
    that model: the two together raise nothing.  [Tags], [Associations],
    [MapPublicIpOnLaunch], [FromPort], [ToPort], [IpProtocol], [IpRanges]
    and the keys of a route may all be absent. *)
Theorem complete_responses_are_drawn (ec2 : ec2_client) (aws_request_id : string) :
  responses_complete ec2 ->
  exists m,
    collect ec2 aws_request_id = Ok m
    /\ nd_timestamp m = Some aws_request_id
    /\ nd_region m = Some (region_name ec2)
    /\ generate_diagram (init m)
       = (Ok (Py.join (Py.nl ++ "    ") (diagram_lines m)),
          {| data := m; diagram := diagram_lines m |}).
Proof.
  intros Hc. destruct (collect_total ec2 Hc aws_request_id) as [m Hm].
  exists m. split; [exact Hm|].
  assert (Hfields : nd_timestamp m = Some aws_request_id
                    /\ nd_region m = Some (region_name ec2)).
  { unfold collect in Hm.
    destruct (describe_vpcs ec2); [|discriminate Hm]. cbn [subscript and_then] in Hm.
    destruct (each vpc_data _); [|discriminate Hm]. cbn [and_then] in Hm.
    destruct (each (collect_subnets ec2) _); [|discriminate Hm].
    cbn [and_then] in Hm.
    destruct (each (collect_route_tables ec2) _); [|discriminate Hm].
    cbn [and_then] in Hm.
    destruct (each (collect_security_groups ec2) _); [|discriminate Hm].
    cbn [and_then] in Hm. inversion Hm. split; reflexivity. }
  destruct Hfields as [Ht Hr]. split; [exact Ht|]. split; [exact Hr|].
  exact (proj2 (collected_run ec2 aws_request_id m Hm)).
Qed.

Lemma sample_client_complete : responses_complete sample_client.
Proof. split; [reflexivity|]. intros id. repeat split; reflexivity. Defined.

Lemma complete_responses_are_drawn_witness :
  exists m,
    collect sample_client "req-1" = Ok m /\ nd_region m = Some "us-east-1".
Proof.
  destruct (complete_responses_are_drawn sample_client "req-1" sample_client_complete)
    as (m & Hm & _ & Hr & _).
  exists m. split; [exact Hm|exact Hr].
Defined.

(** ** Route tables no subnet is associated with *)

Lemma filter_filter_implied {A} (p q : A -> bool) (xs : list A) :
  (forall x, p x = true -> q x = true) -> filter p (filter q xs) = filter p xs.
Proof.
  intros H. induction xs as [|x rest IH]; [reflexivity|].
  cbn [filter]. destruct (q x) eqn:Q.
  - cbn [filter]. now rewrite IH.
  - destruct (p x) eqn:P; [|exact IH].
    rewrite (H x P) in Q. discriminate Q.
Qed.

Lemma forallb_filter_spared {A} (f q : A -> bool) (xs : list A) :
  (forall x, q x = false -> f x = true) -> forallb f (filter q xs) = forallb f xs.
Proof.
  intros H. induction xs as [|x rest IH]; [reflexivity|].
  cbn [filter forallb]. destruct (q x) eqn:Q.
  - cbn [forallb]. now rewrite IH.
  - now rewrite (H x Q), IH.
Qed.

Lemma forallb_ext_in {A} (f g : A -> bool) (xs : list A) :
  (forall x, In x xs -> f x = g x) -> forallb f xs = forallb g xs.
Proof.
  induction xs as [|x rest IH]; [reflexivity|].
  intros H. cbn [forallb]. rewrite (H x) by now left.
  rewrite IH; [reflexivity|]. intros y Hy. apply H. now right.
Qed.

Lemma flat_map_ext_in {A B} (f g : A -> list B) (xs : list A) :
  (forall x, In x xs -> f x = g x) -> flat_map f xs = flat_map g xs.
Proof.
  induction xs as [|x rest IH]; [reflexivity|].
  intros H. cbn [flat_map]. rewrite (H x) by now left.
  rewrite IH; [reflexivity|]. intros y Hy. apply H. now right.
Qed.

Lemma elements_option_map {A} (f : list A -> list A) (field : option (list A)) :
  f [] = [] -> elements (option_map f field) = f (elements field).
Proof. intros H. destruct field; [reflexivity|symmetry; exact H]. Qed.

Lemma present_option_map {A B} (f : A -> B) (field : option A) :
  present (option_map f field) = present field.
Proof. now destruct field. Qed.

Section Unassociated.

Variable v : vpc.

Lemma kept_route_tables :
  elements (vpc_route_tables (without_unassociated v))
  = filter (somewhere v) (elements (vpc_route_tables v)).
Proof.
  unfold without_unassociated. cbn [vpc_route_tables].
  now rewrite elements_option_map.
Qed.

Lemma associated_somewhere (s : subnet) (rt : route_table) :
  In s (elements (vpc_subnets v)) -> associated s rt = true -> somewhere v rt = true.
Proof.
  intros Hs Ha. unfold somewhere. apply existsb_exists. now exists s.
Qed.

Lemma subnet_block_kept (s : subnet) :
  In s (elements (vpc_subnets v)) -> subnet_block (without_unassociated v) s = subnet_block v s.
Proof.
  intros Hs. unfold subnet_block, rt_section, sg_section, route_tables_for,
    security_groups_for.
  rewrite kept_route_tables.
  rewrite (filter_filter_implied (associated s) (somewhere v))
    by (intros rt; apply associated_somewhere, Hs).
  reflexivity.
Qed.

Lemma subnet_ok_kept (s : subnet) :
  In s (elements (vpc_subnets v)) -> subnet_ok (without_unassociated v) s = subnet_ok v s.
Proof.
  intros Hs. unfold subnet_ok. rewrite kept_route_tables.
  rewrite (forallb_filter_spared _ (somewhere v)).
  - unfold without_unassociated. cbn [vpc_route_tables vpc_security_groups].
    now rewrite present_option_map.
  - intros rt Hrt. destruct (associated s rt) eqn:Ha; [|reflexivity].
    rewrite (associated_somewhere s rt Hs Ha) in Hrt. discriminate Hrt.
Qed.

Lemma grouped_subnet (item : string * list subnet) (s : subnet) :
  In item (groups (elements (vpc_subnets v))) -> In s (snd item) -> In s (elements (vpc_subnets v)).
Proof.
  intros Hitem Hs.
  apply (Permutation_in s (groupByAZ_permutation (elements (vpc_subnets v)))).
  rewrite <- groups_groupByAZ. apply in_flat_map. now exists item.
Qed.

Lemma vpc_lines_kept : vpc_lines (without_unassociated v) = vpc_lines v.
Proof.
  unfold vpc_lines, vpc_block, igw_section.
  change (vpc_subnets (without_unassociated v)) with (vpc_subnets v).
  f_equal. f_equal. f_equal.
  apply flat_map_ext_in. intros item Hitem. unfold az_block. f_equal. f_equal.
  apply flat_map_ext_in. intros s Hs.
  apply subnet_block_kept, (grouped_subnet item s Hitem Hs).
Qed.

Lemma vpc_ok_kept : vpc_ok (without_unassociated v) = vpc_ok v.
Proof.
  unfold vpc_ok.
  change (vpc_subnets (without_unassociated v)) with (vpc_subnets v).
  rewrite (forallb_ext_in (subnet_ok (without_unassociated v)) (subnet_ok v)
             (elements (vpc_subnets v)))
    by apply subnet_ok_kept.
  reflexivity.
Qed.

End Unassociated.

(** X12. Route tables that are associated with none of the subnets of
    their VPC have no part in the diagram: taking them out of the model
    changes neither whether [_process_vpc] returns nor the lines it
    appends.  Their own keys are never read, so such a table may lack [id]
    and [routes]. *)
Theorem unassociated_route_tables_are_ignored (v : vpc) (self : generator) :
  vpc_ok (without_unassociated v) = vpc_ok v
  /\ vpc_lines (without_unassociated v) = vpc_lines v
  /\ (vpc_ok v = true ->
      _process_vpc (without_unassociated v) self = _process_vpc v self
      /\ _process_vpc v self = (Ok tt, extend_by self (vpc_lines v))).
Proof.
  split; [apply vpc_ok_kept|]. split; [apply vpc_lines_kept|].
  intros Hok.
  pose proof (_process_vpc_behaves v self) as H. rewrite Hok in H.
  pose proof (_process_vpc_behaves (without_unassociated v) self) as H'.
  rewrite vpc_ok_kept, Hok, vpc_lines_kept in H'.
  split; [now rewrite H, H'|exact H].
Qed.

Lemma unassociated_route_tables_are_ignored_witness :
  _process_vpc Samples.vpc_with_main_table (init Example.model)
  = _process_vpc Example.vpc_1 (init Example.model).
Proof.
  destruct (unassociated_route_tables_are_ignored
              Samples.vpc_with_main_table (init Example.model)) as (_ & _ & H).
  destruct (H eq_refl) as [E _]. rewrite <- E. reflexivity.
Defined.

(** ** The frame of the diagram *)

(** X13. Whatever the model, the text a returning run gives starts with
    the line [graph TB] and ends with the eleven fixed styling lines,
    which do not depend on the model; for a model without VPCs the
    diagram is that frame and nothing else, whatever the buffer held. *)
Theorem diagram_frame (m : network_data) (buffer : list string) :
  required_present m = true ->
  exists body,
    generate_diagram {| data := m; diagram := buffer |}
    = (Ok (Py.join (Py.nl ++ "    ") ("graph TB" :: body ++ styling)),
       {| data := m; diagram := ("graph TB" :: body ++ styling)%list |})
    /\ List.length styling = 11
    /\ (nd_vpcs m = Some [] -> body = []).
Proof.
  intros Hok. exists (flat_map vpc_lines (elements (nd_vpcs m))).
  pose proof (generate_diagram_run {| data := m; diagram := buffer |}) as H.
  cbn [data] in H. rewrite Hok in H. split; [exact H|]. split; [reflexivity|].
  intros Hnone. now rewrite Hnone.
Qed.

Lemma diagram_frame_witness :
  fst (generate_diagram
         {| data := {| nd_timestamp := None; nd_region := None; nd_vpcs := Some [] |};
            diagram := ["stale"] |})
  = Ok (Py.join (Py.nl ++ "    ") ("graph TB" :: styling)).
Proof.
  destruct (diagram_frame
              {| nd_timestamp := None; nd_region := None; nd_vpcs := Some [] |}
              ["stale"] eq_refl) as (body & Hrun & _ & Hbody).
  rewrite Hrun, (Hbody eq_refl). reflexivity.
Defined.

(** ** What each VPC of the model holds *)

Lemma each_Forall2 {A B} (f : A -> result B) (xs : list A) (ys : list B) :
  each f xs = Ok ys -> Forall2 (fun x y => f x = Ok y) xs ys.
Proof.
  revert ys. induction xs as [|x rest IH]; intros ys H.
  - inversion H. constructor.
  - cbn [each] in H. destruct (f x) as [y|] eqn:Ey; [|discriminate H].
    cbn [and_then] in H. destruct (each f rest) as [ys'|]; [|discriminate H].
    cbn [and_then] in H. inversion H. constructor; [exact Ey|now apply IH].
Qed.

Lemma Forall2_compose {A B C} (R : A -> B -> Prop) (S : B -> C -> Prop)
      (xs : list A) (ys : list B) (zs : list C) :
  Forall2 R xs ys -> Forall2 S ys zs ->
  Forall2 (fun x z => exists y, R x y /\ S y z) xs zs.
Proof.
  intros HR. revert zs. induction HR as [|x y xs ys Hxy _ IH]; intros zs HS.
  - inversion HS. constructor.
  - inversion HS as [|y' z ys' zs' Hyz Hrest]; subst.
    constructor; [now exists y|now apply IH].
Qed.

Ltac fill_step H IH :=
  cbn [fill] in H;
  match type of H with
  | context [and_then (?build ?raw)] =>
      destruct (build raw) as [e|] eqn:Ee; [|discriminate H]
  end;
  cbn [and_then] in H.

Lemma fill_subnets (raws : list raw_subnet) (v v' : vpc) (held : list subnet) :
  vpc_subnets v = Some held ->
  fill subnet_data append_subnet raws v = Ok v' ->
  exists built,
    each subnet_data raws = Ok built
    /\ vpc_subnets v' = Some (held ++ built)%list
    /\ vpc_id v' = vpc_id v /\ vpc_name v' = vpc_name v /\ vpc_cidr v' = vpc_cidr v
    /\ vpc_route_tables v' = vpc_route_tables v
    /\ vpc_security_groups v' = vpc_security_groups v.
Proof.
  revert v held. induction raws as [|raw rest IH]; intros v held Hheld H.
  - inversion H. subst v'. exists []. rewrite app_nil_r. now repeat split.
  - fill_step H IH.
    destruct (append_subnet v e) as [v1|] eqn:Ev1; [|discriminate H].
    cbn [and_then] in H. unfold append_subnet in Ev1. rewrite Hheld in Ev1.
    cbn [subscript and_then] in Ev1. inversion Ev1 as [Hv1]. clear Ev1.
    rewrite <- Hv1 in H.
    match type of H with
    | fill _ _ _ ?w = _ =>
        destruct (IH w (held ++ [e])%list eq_refl H)
          as (built & Hbuilt & Hs & Hid & Hname & Hcidr & Hrt & Hsg)
    end.
    exists (e :: built). cbn [each]. rewrite Ee, Hbuilt. cbn [and_then].
    rewrite Hs, <- app_assoc. now repeat split.
Qed.

Lemma fill_route_tables (raws : list raw_route_table) (v v' : vpc)
      (held : list route_table) :
  vpc_route_tables v = Some held ->
  fill rt_data append_route_table raws v = Ok v' ->
  exists built,
    each rt_data raws = Ok built
    /\ vpc_route_tables v' = Some (held ++ built)%list
    /\ vpc_id v' = vpc_id v /\ vpc_name v' = vpc_name v /\ vpc_cidr v' = vpc_cidr v
    /\ vpc_subnets v' = vpc_subnets v
    /\ vpc_security_groups v' = vpc_security_groups v.
Proof.
  revert v held. induction raws as [|raw rest IH]; intros v held Hheld H.
  - inversion H. subst v'. exists []. rewrite app_nil_r. now repeat split.
  - fill_step H IH.
    destruct (append_route_table v e) as [v1|] eqn:Ev1; [|discriminate H].
    cbn [and_then] in H. unfold append_route_table in Ev1. rewrite Hheld in Ev1.
    cbn [subscript and_then] in Ev1. inversion Ev1 as [Hv1]. clear Ev1.
    rewrite <- Hv1 in H.
    match type of H with
    | fill _ _ _ ?w = _ =>
        destruct (IH w (held ++ [e])%list eq_refl H)
          as (built & Hbuilt & Hs & Hid & Hname & Hcidr & Hsub & Hsg)
    end.
    exists (e :: built). cbn [each]. rewrite Ee, Hbuilt. cbn [and_then].
    rewrite Hs, <- app_assoc. now repeat split.
Qed.

Lemma fill_security_groups (raws : list raw_security_group) (v v' : vpc)
      (held : list security_group) :
  vpc_security_groups v = Some held ->
  fill sg_data append_security_group raws v = Ok v' ->
  exists built,
    each sg_data raws = Ok built
    /\ vpc_security_groups v' = Some (held ++ built)%list
    /\ vpc_id v' = vpc_id v /\ vpc_name v' = vpc_name v /\ vpc_cidr v' = vpc_cidr v
    /\ vpc_subnets v' = vpc_subnets v
    /\ vpc_route_tables v' = vpc_route_tables v.
Proof.
  revert v held. induction raws as [|raw rest IH]; intros v held Hheld H.
  - inversion H. subst v'. exists []. rewrite app_nil_r. now repeat split.
  - fill_step H IH.
    destruct (append_security_group v e) as [v1|] eqn:Ev1; [|discriminate H].
    cbn [and_then] in H. unfold append_security_group in Ev1. rewrite Hheld in Ev1.
    cbn [subscript and_then] in Ev1. inversion Ev1 as [Hv1]. clear Ev1.
    rewrite <- Hv1 in H.
    match type of H with
    | fill _ _ _ ?w = _ =>
        destruct (IH w (held ++ [e])%list eq_refl H)
          as (built & Hbuilt & Hs & Hid & Hname & Hcidr & Hsub & Hrt)
    end.
    exists (e :: built). cbn [each]. rewrite Ee, Hbuilt. cbn [and_then].
    rewrite Hs, <- app_assoc. now repeat split.
Qed.

(** X14. Every VPC of the model the collector returns stands for the
    entry of [describe_vpcs] at the same place: it has that entry's
    [VpcId] and [CidrBlock], and it holds the subnets, route tables and
    security groups that the client returns for that [VpcId], each
    converted and in the order of the response. *)
Theorem collected_vpc_contents
        (ec2 : ec2_client) (aws_request_id : string) (m : network_data) :
  collect ec2 aws_request_id = Ok m ->
  exists raws vpcs,
    describe_vpcs ec2 = Some raws
    /\ nd_vpcs m = Some vpcs
    /\ List.length vpcs = List.length raws
    /\ Forall2
         (fun raw v =>
            exists id raw_subnets raw_tables raw_groups,
              VpcId raw = Some id
              /\ vpc_id v = Some id
              /\ vpc_cidr v = vpc_CidrBlock raw
              /\ get_name_tag (get (vpc_Tags raw) []) = subscript "name" (vpc_name v)
              /\ describe_subnets ec2 id = Some raw_subnets
              /\ each subnet_data raw_subnets = subscript "subnets" (vpc_subnets v)
              /\ describe_route_tables ec2 id = Some raw_tables
              /\ each rt_data raw_tables
                 = subscript "route_tables" (vpc_route_tables v)
              /\ describe_security_groups ec2 id = Some raw_groups
              /\ each sg_data raw_groups
                 = subscript "security_groups" (vpc_security_groups v))
         raws vpcs.
Proof.
  unfold collect. intros H.
  destruct (describe_vpcs ec2) as [raws|]; [|discriminate H].
  cbn [subscript and_then] in H.
  destruct (each vpc_data raws) as [vpcs0|] eqn:E0; [|discriminate H].
  cbn [and_then] in H.
  destruct (each (collect_subnets ec2) vpcs0) as [vpcs1|] eqn:E1; [|discriminate H].
  cbn [and_then] in H.
  destruct (each (collect_route_tables ec2) vpcs1) as [vpcs2|] eqn:E2; [|discriminate H].
  cbn [and_then] in H.
  destruct (each (collect_security_groups ec2) vpcs2) as [vpcs3|] eqn:E3;
    [|discriminate H].
  cbn [and_then] in H. inversion H. cbn [nd_vpcs].
  exists raws, vpcs3. split; [reflexivity|]. split; [reflexivity|].
  apply each_Forall2 in E0, E1, E2, E3.
  pose proof (Forall2_compose _ _ _ _ _
                (Forall2_compose _ _ _ _ _ (Forall2_compose _ _ _ _ _ E0 E1) E2) E3)
    as Hall.
  split; [symmetry; exact (Forall2_length Hall)|].
  refine (Forall2_impl _ _ Hall).
  clear. intros raw v3 (v2 & (v1 & (v0 & H0 & H1) & H2) & H3).
  unfold vpc_data in H0.
  destruct (VpcId raw) as [id|]; [|discriminate H0]. cbn [subscript and_then] in H0.
  destruct (get_name_tag (get (vpc_Tags raw) [])) as [name|]; [|discriminate H0].
  cbn [and_then] in H0.
  destruct (vpc_CidrBlock raw) as [cidr|]; [|discriminate H0].
  cbn [subscript and_then] in H0. inversion H0 as [Hv0]. clear H0.
  unfold collect_subnets in H1. rewrite <- Hv0 in H1. cbn [vpc_id subscript and_then] in H1.
  destruct (describe_subnets ec2 id) as [raw_subnets|] eqn:Ds; [|discriminate H1].
  cbn [subscript and_then] in H1.
  match type of H1 with
  | fill _ _ _ ?w = _ =>
      destruct (fill_subnets raw_subnets w v1 [] eq_refl H1)
        as (subnets & Hsub & S1 & I1 & N1 & C1 & R1 & G1)
  end.
  cbn [vpc_id vpc_name vpc_cidr vpc_route_tables vpc_security_groups app] in *.
  unfold collect_route_tables in H2. rewrite I1 in H2. cbn [subscript and_then] in H2.
  destruct (describe_route_tables ec2 id) as [raw_tables|] eqn:Dr; [|discriminate H2].
  cbn [subscript and_then] in H2.
  destruct (fill_route_tables _ _ _ [] R1 H2)
    as (tables & Hrt & R2 & I2 & N2 & C2 & S2 & G2).
  unfold collect_security_groups in H3. rewrite I2, I1 in H3.
  cbn [subscript and_then] in H3.
  destruct (describe_security_groups ec2 id) as [raw_groups|] eqn:Dg;
    [|discriminate H3].
  cbn [subscript and_then] in H3.
  assert (G2' : vpc_security_groups v2 = Some []) by now rewrite G2, G1.
  destruct (fill_security_groups _ _ _ [] G2' H3)
    as (groups & Hsg & G3 & I3 & N3 & C3 & S3 & R3).
  exists id, raw_subnets, raw_tables, raw_groups.
  rewrite I3, I2, I1, C3, C2, C1, N3, N2, N1, S3, S2, S1, R3, R2, G3.
  cbn [app subscript]. now repeat split.
Qed.

Lemma collected_vpc_contents_witness :
  exists m vpcs,
    collect sample_client "req-1" = Ok m
    /\ nd_vpcs m = Some vpcs /\ List.length vpcs = 1.
Proof.
  destruct (collect sample_client "req-1") as [m|e] eqn:E; [|discriminate E].
  destruct (collected_vpc_contents sample_client "req-1" m E)
    as (raws & vpcs & Hraws & Hvpcs & Hlen & _).
  exists m, vpcs. split; [reflexivity|]. split; [exact Hvpcs|].
  rewrite Hlen. inversion Hraws. reflexivity.
Defined.

(** * The collector's values in the diagram *)

Lemma each_map {A B C} (f : A -> result B) (g : B -> C) (h : A -> C)
      (xs : list A) (ys : list B) :
  (forall x y, f x = Ok y -> g y = h x) ->
  each f xs = Ok ys -> map g ys = map h xs.
Proof.
  intros Hgh Heach. apply each_Forall2 in Heach.
  induction Heach as [|x y xs ys Hxy _ IH]; [reflexivity|].
  cbn [map]. now rewrite (Hgh x y Hxy), IH.
Qed.

Lemma subnet_data_fields (raw : raw_subnet) (s : subnet) :
  subnet_data raw = Ok s ->
  subnet_id s = SubnetId raw
  /\ subnet_cidr s = subnet_CidrBlock raw
  /\ subnet_public s = Some (get (MapPublicIpOnLaunch raw) false).
Proof.
  unfold subnet_data. destruct (SubnetId raw); [|discriminate].
  cbn [subscript and_then]. destruct (get_name_tag _); [|discriminate].
  cbn [and_then]. destruct (subnet_CidrBlock raw); [|discriminate].
  cbn [subscript and_then]. destruct (AvailabilityZone raw); [|discriminate].
  cbn [subscript and_then]. intros H. inversion H. now repeat split.
Qed.

(** X15. Let the subnets of a VPC [v] be those the collector builds from
    the entries of a [describe_subnets] response.  The gateway edges that
    [_process_vpc] appends after the node are then those of the entries
    whose [MapPublicIpOnLaunch] is [True], in the order of the response,
    each pointing at [subnet_<sanitize(SubnetId)>]; an entry whose
    [MapPublicIpOnLaunch] is [False] or absent gets none.  The block of
    every entry is opened in the containment block of [v] with the label
    [Public Subnet] in the first case and [Private Subnet] in the
    second. *)
Theorem gateway_edges_from_launch_setting
        (raws : list raw_subnet) (subnets : list subnet) (v : vpc) (self : generator) :
  each subnet_data raws = Ok subnets ->
  vpc_subnets v = Some subnets ->
  vpc_ok v = true ->
  exists launched,
    launched = filter (fun raw => match MapPublicIpOnLaunch raw with
                                  | Some true => true
                                  | _ => false
                                  end) raws
    /\ _process_vpc v self
       = (Ok tt, extend_by self
                   (vpc_block v
                      ++ ("    igw_" ++ sanitize (text (vpc_id v)) ++ "[" ++ Py.dq
                            ++ "Internet Gateway" ++ Py.dq ++ "]")
                      :: map (fun raw =>
                                "    igw_" ++ sanitize (text (vpc_id v)) ++ " --> subnet_"
                                  ++ sanitize (text (SubnetId raw)))
                             launched))
    /\ (forall raw,
           In raw raws ->
           In ("            subgraph subnet_" ++ sanitize (text (SubnetId raw)) ++ "["
                 ++ Py.dq
                 ++ match MapPublicIpOnLaunch raw with
                    | Some true => "Public"
                    | _ => "Private"
                    end
                 ++ " Subnet (" ++ text (subnet_CidrBlock raw) ++ ")" ++ Py.dq ++ "]")
              (vpc_block v)).
Proof.
  intros Hbuilt Hsubnets Hok.
  assert (Hflag : forall raw s,
             subnet_data raw = Ok s ->
             is_public s = match MapPublicIpOnLaunch raw with
                           | Some true => true
                           | _ => false
                           end).
  { intros raw s Hs. apply subnet_data_fields in Hs as (_ & _ & Hpub).
    unfold is_public, truthy. rewrite Hpub.
    now destruct (MapPublicIpOnLaunch raw) as [[|]|]. }
  eexists. split; [reflexivity|]. split.
  - pose proof (_process_vpc_behaves v self) as Hrun. rewrite Hok in Hrun.
    rewrite Hrun. unfold vpc_lines, igw_section, elements.
    rewrite Hsubnets. cbn [get]. do 4 f_equal.
    apply (each_map subnet_data).
    + intros raw s Hs. apply subnet_data_fields in Hs as (Hid & _ & _).
      unfold igw_edge, subnet_block_id. now rewrite Hid.
    + now apply each_filter.
  - intros raw Hraw. apply each_Forall2 in Hbuilt.
    assert (Hs : exists s, In s subnets /\ subnet_data raw = Ok s).
    { clear - Hbuilt Hraw. induction Hbuilt as [|x y xs ys Hxy _ IH]; [destruct Hraw|].
      destruct Hraw as [<-|Hraw].
      - exists y. split; [now left|exact Hxy].
      - destruct (IH Hraw) as (s & Hin & Hs). exists s. split; [now right|exact Hs]. }
    destruct Hs as (s & Hin & Hs).
    pose proof (Hflag raw s Hs) as Hpublic.
    apply subnet_data_fields in Hs as (Hid & Hcidr & _).
    assert (Hin' : In (subnet_header s) (vpc_block v)).
    { apply subnet_header_in_vpc_block. unfold elements. rewrite Hsubnets. exact Hin. }
    unfold subnet_header, subnet_block_id in Hin'.
    rewrite Hpublic, Hid, Hcidr in Hin'.
    now destruct (MapPublicIpOnLaunch raw) as [[|]|].
Qed.

Lemma gateway_edges_from_launch_setting_witness :
  exists lines,
    _process_vpc Samples.vpc_with_built_subnets (init Example.model)
    = (Ok tt, extend_by (init Example.model) lines)
    /\ starting_with igw_prefix lines
       = ["    igw_vpc_1[" ++ Py.dq ++ "Internet Gateway" ++ Py.dq ++ "]";
          "    igw_vpc_1 --> subnet_subnet_1"]
    /\ In ("            subgraph subnet_subnet_2[" ++ Py.dq
             ++ "Private Subnet (10.0.2.0/24)" ++ Py.dq ++ "]") lines.
Proof.
  destruct (gateway_edges_from_launch_setting
              Samples.raw_subnets Samples.built_subnets Samples.vpc_with_built_subnets
              (init Example.model) eq_refl eq_refl eq_refl)
    as (launched & Hlaunched & Hrun & _).
  rewrite Hlaunched in Hrun.
  eexists. split; [exact Hrun|]. split; [reflexivity|].
  vm_compute. tauto.
Defined.

Lemma raw_get_In (key value : string) (r : Mapper.raw_route) (default : string) :
  NoDup (map fst r) -> In (key, value) r -> Mapper.raw_get key r default = value.
Proof.
  induction r as [|[k v] rest IH]; intros Hkeys Hin; [destruct Hin|].
  cbn [map fst] in Hkeys. inversion Hkeys as [|? ? Hfresh Hrest]; subst.
  cbn [Mapper.raw_get]. destruct Hin as [Heq|Hin].
  - inversion Heq. subst. now rewrite String.eqb_refl.
  - destruct (String.eqb k key) eqn:E; [|now apply IH].
    apply String.eqb_eq in E. subst k. exfalso. apply Hfresh.
    apply in_map_iff. now exists (key, value).
Qed.

(** X16. A route table whose routes the collector built from the routes
    of a response is drawn with one label for each of them, in order:
    the value the route has under [DestinationCidrBlock], an arrow, and
    the value under its first key ending in [Id], or [Unknown] when it
    has no such key. *)
Theorem route_labels_from_response
        (raws : list Mapper.raw_route) (destinations : list string)
        (id subnet_id : string) (name : option string)
        (associations : option (list string)) (self : generator) :
  Forall2 (fun raw destination =>
             NoDup (map fst raw) /\ In ("DestinationCidrBlock", destination) raw)
          raws destinations ->
  _add_route_table
    {| rt_id := Some id; rt_name := name;
       rt_routes := Some (map Mapper.route_data raws);
       rt_subnet_associations := associations |} subnet_id self
  = (Ok tt, extend_by self
              [ "                rt_" ++ sanitize id ++ "[" ++ Py.dq ++ "Route Table<br/>"
                  ++ Py.join "<br/>"
                       (map (fun item =>
                               "- " ++ snd item ++ " → "
                                 ++ Mapper.next_id_value (fst item) "Unknown")
                            (combine raws destinations))
                  ++ Py.dq ++ "]";
                "                rt_" ++ sanitize id ++ " --> subnet_" ++ subnet_id ]).
Proof.
  intros Hraws.
  pose proof (_add_route_table_behaves
                {| rt_id := Some id; rt_name := name;
                   rt_routes := Some (map Mapper.route_data raws);
                   rt_subnet_associations := associations |} subnet_id self) as Hrun.
  assert (Hok : rt_ok {| rt_id := Some id; rt_name := name;
                         rt_routes := Some (map Mapper.route_data raws);
                         rt_subnet_associations := associations |} = true).
  { unfold rt_ok, elements. cbn [rt_id rt_routes present get andb].
    apply forallb_forall. intros r Hr. apply in_map_iff in Hr as (raw & <- & _).
    reflexivity. }
  rewrite Hok in Hrun. rewrite Hrun. clear Hrun Hok.
  assert (Hlabels : map route_label (map Mapper.route_data raws)
                    = map (fun item =>
                             "- " ++ snd item ++ " → "
                               ++ Mapper.next_id_value (fst item) "Unknown")
                          (combine raws destinations)).
  { induction Hraws as [|raw destination raws destinations [Hkeys Hin] _ IH];
      [reflexivity|].
    cbn [map combine fst snd]. rewrite IH. f_equal.
    unfold route_label, text, Mapper.route_data.
    cbn [route_destination route_target get].
    now rewrite (raw_get_In _ _ _ _ Hkeys Hin). }
  unfold rt_lines, rt_node, rt_edge, elements, text. cbn [rt_id rt_routes get].
  now rewrite Hlabels.
Qed.

Lemma route_labels_from_response_witness :
  _add_route_table
    {| rt_id := Some "rtb-1"; rt_name := None;
       rt_routes := Some (map Mapper.route_data Samples.raw_routes);
       rt_subnet_associations := None |} "subnet_1" (init Example.model)
  = (Ok tt, extend_by (init Example.model)
              [ "                rt_rtb_1[" ++ Py.dq
                  ++ "Route Table<br/>- 0.0.0.0/0 → igw-1<br/>- 10.0.0.0/16 → local"
                  ++ Py.dq ++ "]";
                "                rt_rtb_1 --> subnet_subnet_1" ]).
Proof.
  assert (Hkeys : Forall2 (fun raw destination =>
                             NoDup (map fst raw)
                             /\ In ("DestinationCidrBlock", destination) raw)
                          Samples.raw_routes ["0.0.0.0/0"; "10.0.0.0/16"]).
  { repeat constructor; cbn; intuition discriminate. }
  rewrite (route_labels_from_response
             Samples.raw_routes ["0.0.0.0/0"; "10.0.0.0/16"] "rtb-1" "subnet_1"
             None None (init Example.model) Hkeys).
  reflexivity.
Defined.
